(** * AI Interview Coach: question synthesis and paraphrasing pipeline

    A shallow embedding of the helper functions of [app.py]
    ([paraphrase_simple], [generate_question_from_text],
    [fetch_text_from_url]) and of the Generate-tab handler (seed corpus
    construction and the batching loop), with the properties of the
    specification stated over them.

    The collaborators the program calls but does not implement (NLTK and
    WordNet, the [random] module, [requests] and BeautifulSoup, the Supabase
    table) are interfaces; the program text itself is executable over any
    implementation of them. *)

From Stdlib Require Import Ascii String QArith DecimalString.
From stdpp Require Import base option list strings gmap.

Open Scope string_scope.
Open Scope list_scope.
Open Scope nat_scope.

(** ** Python strings

    Strings are sequences of characters with ASCII semantics: the
    white-space and case tables below are those of Python's [str] restricted
    to code points below 128. *)

Module Str.

(** [c.isspace()]: TAB, LF, VT, FF, CR, the four separators FS, GS, RS, US
    and the space. *)
Definition isspace (c : ascii) : bool :=
  let n := nat_of_ascii c in
  ((9 <=? n) && (n <=? 13)) || ((28 <=? n) && (n <=? 32)).

(** One character of [s.lower()]. *)
Definition lower_char (c : ascii) : ascii :=
  let n := nat_of_ascii c in
  if (65 <=? n) && (n <=? 90) then ascii_of_nat (n + 32) else c.

(** [s.lower()] *)
Fixpoint lower (s : string) : string :=
  match s with
  | EmptyString => EmptyString
  | String c s' => String (lower_char c) (lower s')
  end.

(** [s.split()]: maximal runs of non-space characters.  [cur] is the run
    being read, in reverse. *)
Fixpoint split_go (cur : list ascii) (s : string) : list string :=
  match s with
  | EmptyString =>
      match cur with
      | [] => []
      | _ => [string_of_list_ascii (rev cur)]
      end
  | String c s' =>
      if isspace c then
        match cur with
        | [] => split_go [] s'
        | _ => string_of_list_ascii (rev cur) :: split_go [] s'
        end
      else split_go (c :: cur) s'
  end.

Definition split (s : string) : list string := split_go [] s.

(** [s.lstrip()], [s.rstrip()] and [s.strip()] *)
Fixpoint lstrip (s : string) : string :=
  match s with
  | EmptyString => EmptyString
  | String c s' => if isspace c then lstrip s' else s
  end.

Fixpoint rstrip (s : string) : string :=
  match s with
  | EmptyString => EmptyString
  | String c s' =>
      match rstrip s' with
      | EmptyString => if isspace c then EmptyString else String c EmptyString
      | r => String c r
      end
  end.

Definition strip (s : string) : string := rstrip (lstrip s).

(** [s.split(sep)] for a one-character separator: always at least one
    field. *)
Fixpoint split_on (sep : ascii) (s : string) : list string :=
  match s with
  | EmptyString => [EmptyString]
  | String c s' =>
      if Ascii.eqb c sep then EmptyString :: split_on sep s'
      else
        match split_on sep s' with
        | [] => [String c EmptyString]
        | f :: fs => String c f :: fs
        end
  end.

(** Line boundaries of [s.splitlines()]: LF, VT, FF, CR, FS, GS, RS (and
    CR LF as one boundary). *)
Definition is_linebreak (c : ascii) : bool :=
  let n := nat_of_ascii c in
  ((10 <=? n) && (n <=? 13)) || ((28 <=? n) && (n <=? 30)).

(** [s.splitlines()]: no empty last line after a final boundary. *)
Fixpoint splitlines_go (cur : list ascii) (s : string) : list string :=
  match s with
  | EmptyString =>
      match cur with
      | [] => []
      | _ => [string_of_list_ascii (rev cur)]
      end
  | String c s' =>
      if is_linebreak c then
        let rest :=
          match s' with
          | String c' s'' =>
              if Ascii.eqb c "013" && Ascii.eqb c' "010"
              then splitlines_go [] s''
              else splitlines_go [] s'
          | EmptyString => []
          end in
        string_of_list_ascii (rev cur) :: rest
      else splitlines_go (c :: cur) s'
  end.

Definition splitlines (s : string) : list string := splitlines_go [] s.

(** [sep.join(l)] *)
Definition join (sep : string) (l : list string) : string :=
  String.concat sep l.

(** [s.replace(a, b)] for single characters. *)
Fixpoint replace_char (a b : ascii) (s : string) : string :=
  match s with
  | EmptyString => EmptyString
  | String c s' =>
      String (if Ascii.eqb c a then b else c) (replace_char a b s')
  end.

(** [s.startswith(p)] *)
Definition startswith (s p : string) : bool := String.prefix p s.

(** The first [n] characters of [s]. *)
Fixpoint take (n : nat) (s : string) : string :=
  match n, s with
  | S n', String c s' => String c (take n' s')
  | _, _ => EmptyString
  end.

(** The slice [s[:k]] for a Python integer [k]: a negative [k] counts from
    the end. *)
Definition slice_to (k : Z) (s : string) : string :=
  if (0 <=? k)%Z then take (Z.to_nat k) s
  else take (String.length s - Z.to_nat (- k)) s.

(** No character other than white space. *)
Fixpoint blank (s : string) : bool :=
  match s with
  | EmptyString => true
  | String c s' => isspace c && blank s'
  end.

(** Truth value of a string: non-empty. *)
Definition truthy (s : string) : bool :=
  match s with EmptyString => false | _ => true end.

End Str.

(** ** Exceptions and state

    A computation reads and updates a state and either returns a value or
    raises; the state reached when it raises is kept, as the effects of a
    Python program are. *)

Inductive exn : Type :=
  | IndexError          (* subscript or choice on an empty sequence *)
  | RequestException    (* raised by requests.get *)
  | HTTPError           (* raised by Response.raise_for_status *)
  | ParserError         (* raised while building the soup *)
  | APIError            (* raised by execute() of the table client *)
  | ImportError.        (* raised by an import of a name a module lacks *)

Inductive result (A : Type) : Type :=
  | Ok (a : A)
  | Raise (e : exn).
Arguments Ok {A} a.
Arguments Raise {A} e.

Definition M (S A : Type) : Type := S -> result A * S.

Definition ret {S A : Type} (a : A) : M S A := fun s => (Ok a, s).

Definition raise {S A : Type} (e : exn) : M S A := fun s => (Raise e, s).

Definition bind {S A B : Type} (m : M S A) (k : A -> M S B) : M S B :=
  fun s =>
    match m s with
    | (Ok a, s') => k a s'
    | (Raise e, s') => (Raise e, s')
    end.

(** A step that cannot raise. *)
Definition lift {S A : Type} (f : S -> A * S) : M S A :=
  fun s => let '(a, s') := f s in (Ok a, s').

Notation "x <~ m ;; k" := (bind m (fun x => k))
  (at level 100, m at next level, right associativity).
Notation "m ;;; k" := (bind m (fun _ => k))
  (at level 100, right associativity).

(** ** The collaborators *)

(** The [random] module: a generator state, [random.random()], the index
    that [random.choice] draws for a sequence of [n] elements, and
    [random.shuffle]. *)
Class Random : Type := {
  rng : Type;
  random_random : rng -> Q * rng;
  randbelow : nat -> rng -> nat * rng;
  random_shuffle : list string -> rng -> list string * rng
}.

(** What the program relies on: the index is in range and the shuffle
    rearranges. *)
Class RandomLaws (R : Random) : Prop := {
  randbelow_lt : forall n g, 0 < n -> fst (randbelow n g) < n;
  random_shuffle_perm : forall l g, Permutation l (fst (random_shuffle l g))
}.

(** NLTK: the names the module [nltk.tokenize] has, the sentence and word
    tokenizers, the part-of-speech tagger, and WordNet, where a synset is
    given by the names of its lemmas. *)
Class Nltk : Type := {
  tokenize_has : string -> bool;
  sent_tokenize : string -> list string;
  word_tokenize : string -> list string;
  pos_tag : list string -> list (string * string);
  wordnet_synsets : string -> list (list string)
}.

(** The tagger of NLTK lives in [nltk.tag] and is re-exported by [nltk]
    itself: the module [nltk.tokenize] has no [pos_tag]. *)
Class NltkLaws (N : Nltk) : Prop := {
  tokenize_lacks_pos_tag : tokenize_has "pos_tag" = false
}.

(** [requests] and BeautifulSoup: what a GET does, the parser, and the three
    queries the program makes on a parsed tree. *)
Inductive get_outcome : Type :=
  | GetRaised
  | GetResponse (status_code : Z) (text : string).

Class Http : Type := {
  web : Type;
  requests_get : string -> web -> get_outcome * web;
  tag : Type;
  BeautifulSoup : string -> option tag;        (* None: the parser raised *)
  find_article : tag -> option tag;            (* soup.find('article') *)
  find_all_p : tag -> list tag;                (* t.find_all('p') *)
  get_text : tag -> string                     (* p.get_text(separator=' ', strip=True) *)
}.

(** A row of the [questions] table as the Generate tab builds it. *)
Record question : Type := {
  interview_id : option string;
  topic : string;
  q_text : string;
  source_url : string
}.

(** The [questions] table: [insert(rows).execute()] answers with a status
    code or raises. *)
Inductive execute_outcome : Type :=
  | Executed (status_code : Z)
  | ExecuteRaised.

Class Store : Type := {
  db : Type;
  questions_insert : list question -> db -> execute_outcome * db
}.

(** ** random.choice *)

Section RandomOps.
Context {R : Random}.

Definition random_float : M rng Q := lift random_random.

(** [random.choice(seq)]: an empty sequence raises IndexError. *)
Definition random_choice {A : Type} (seq : list A) : M rng A :=
  match seq with
  | [] => raise IndexError
  | _ =>
      i <~ lift (randbelow (length seq));;
      match seq !! i with
      | Some x => ret x
      | None => raise IndexError
      end
  end.

Definition Qlt_bool (x y : Q) : bool := negb (Qle_bool y x).

End RandomOps.

(** ** paraphrase_simple *)

Section Paraphrase.
Context {R : Random} {N : Nltk}.

(** [t.startswith('NN') or t.startswith('JJ')] *)
Definition is_noun_or_adj (t : string) : bool :=
  Str.startswith t "NN" || Str.startswith t "JJ".

(** [[l.name().replace('_', ' ') for s in syns for l in s.lemmas()]] *)
Definition lemma_names (syns : list (list string)) : list string :=
  flat_map (fun s => map (Str.replace_char "_" " ") s) syns.

(** [[x for x in lemmas if x.lower() != w.lower()]] *)
Definition other_lemmas (w : string) (lemmas : list string) : list string :=
  List.filter (fun x => negb (String.eqb (Str.lower x) (Str.lower w))) lemmas.

(** The substitution probability and the shuffle probability, the literals
    0.28 and 0.3 read as rationals. *)
Definition p_sub : Q := 28 # 100.
Definition p_shuffle : Q := 3 # 10.

(** The body of the loop over [(w, t)]: the word appended to
    [new_words]. *)
Definition substitute_word (w t : string) : M rng string :=
  if is_noun_or_adj t then
    r <~ random_float;;
    if Qlt_bool r p_sub then
      match wordnet_synsets w with
      | [] => ret w
      | syns =>
          match other_lemmas w (lemma_names syns) with
          | [] => ret w
          | lemmas => random_choice lemmas
          end
      end
    else ret w
  else ret w.

(** The loop over [tags], giving [new_words]. *)
Fixpoint rewrite_words (tags : list (string * string)) : M rng (list string) :=
  match tags with
  | [] => ret []
  | (w, t) :: rest =>
      w' <~ substitute_word w t;;
      new_words <~ rewrite_words rest;;
      ret (w' :: new_words)
  end.

(** The loop over [sents], giving [out_sents]. *)
Fixpoint rewrite_sents (sents : list string) : M rng (list string) :=
  match sents with
  | [] => ret []
  | sent :: rest =>
      let words := word_tokenize sent in
      let tags := pos_tag words in
      new_words <~ rewrite_words tags;;
      out_sents <~ rewrite_sents rest;;
      ret (Str.join " " new_words :: out_sents)
  end.

(** [if len(out_sents) > 1 and random.random() < 0.3: random.shuffle(out_sents)] *)
Definition maybe_shuffle (out_sents : list string) : M rng (list string) :=
  if 1 <? length out_sents then
    r <~ random_float;;
    if Qlt_bool r p_shuffle then lift (random_shuffle out_sents)
    else ret out_sents
  else ret out_sents.

(** Line 50, [from nltk.tokenize import sent_tokenize, word_tokenize,
    pos_tag]: the statement raises ImportError unless the module has every
    name it lists. *)
Definition import_from_tokenize (names : list string) : M rng unit :=
  if forallb tokenize_has names then ret tt else raise ImportError.

(** Lines 51-71, after the import. *)
Definition paraphrase_sents (text : string) : M rng (list string) :=
  out_sents <~ rewrite_sents (sent_tokenize text);;
  maybe_shuffle out_sents.

Definition paraphrase_simple (text : string) : M rng string :=
  import_from_tokenize ["sent_tokenize"; "word_tokenize"; "pos_tag"];;;
  out_sents <~ paraphrase_sents text;;
  ret (Str.join " " out_sents).

End Paraphrase.

(** ** generate_question_from_text *)

Section Compose.
Context {R : Random} {N : Nltk}.

(** [list(dict.fromkeys(l))]: the first occurrence of each element, in
    order.  [seen] holds the keys already in the dictionary. *)
Fixpoint dict_fromkeys_go (seen l : list string) : list string :=
  match l with
  | [] => []
  | x :: l' =>
      if bool_decide (x ∈ seen) then dict_fromkeys_go seen l'
      else x :: dict_fromkeys_go (x :: seen) l'
  end.

Definition dict_fromkeys (l : list string) : list string :=
  dict_fromkeys_go [] l.

(** [[w for w, t in tags if t.startswith('NN') and len(w) > 3]] *)
Definition nouns_of (tags : list (string * string)) : list string :=
  map fst
    (List.filter
       (fun wt => Str.startswith (snd wt) "NN" && (3 <? String.length (fst wt)))
       tags).

(** Lines 84-88: the terms [chosen] for a paragraph. *)
Definition chosen_nouns (para : string) : list string :=
  let tokens := word_tokenize para in
  let tags := pos_tag tokens in
  let nouns := nouns_of tags in
  let nouns := dict_fromkeys nouns in
  take 3 nouns.

Definition scenario_question (core topic : string) : string :=
  "In a production scenario involving " +:+ core +:+
  ", what are the top non-obvious trade-offs you would evaluate, and how would you mitigate the top two risks? (Tie it into "
  +:+ topic +:+ " context.)".

Definition generic_question (topic : string) : string :=
  "Describe an advanced challenge in " +:+ topic +:+
  " that can arise from the technology discussed in the source, and propose a step-by-step resolution strategy.".

(** The non-blank lines of [text], or [text] itself when there is none. *)
Definition paragraphs (text : string) : list string :=
  match List.filter (fun p => Str.truthy (Str.strip p)) (Str.split_on "010" text) with
  | [] => [text]
  | paras => paras
  end.

Definition generate_question_from_text (text topic : string) : M rng string :=
  let paras := paragraphs text in
  para <~ random_choice (take 5 paras);;
  let chosen := chosen_nouns para in
  match chosen with
  | [] => ret (generic_question topic)
  | _ => ret (scenario_question (Str.join ", " (take 2 chosen)) topic)
  end.

End Compose.

(** ** fetch_text_from_url *)

Section Fetch.
Context {H : Http}.

(** [resp.raise_for_status()]: client and server error codes raise. *)
Definition raise_for_status (status_code : Z) : M web unit :=
  if ((400 <=? status_code) && (status_code <? 600))%Z
  then raise HTTPError else ret tt.

(** The paragraphs of the article element when there is one, of the whole
    page otherwise, joined by spaces. *)
Definition page_text (soup : tag) : string :=
  match find_article soup with
  | Some article => Str.join " " (map get_text (find_all_p article))
  | None => Str.join " " (map get_text (find_all_p soup))
  end.

(** [if len(text) > max_chars: text = text[:max_chars]] *)
Definition truncate (max_chars : Z) (text : string) : string :=
  if (max_chars <? Z.of_nat (String.length text))%Z
  then Str.slice_to max_chars text else text.

(** The body of the [try]. *)
Definition fetch_try (url : string) (max_chars : Z) : M web string :=
  fun w =>
    match requests_get url w with
    | (GetRaised, w') => (Raise RequestException, w')
    | (GetResponse status_code body, w') =>
        (raise_for_status status_code;;;
         match BeautifulSoup body with
         | None => raise ParserError
         | Some soup => ret (truncate max_chars (page_text soup))
         end) w'
    end.

(** [except Exception: return None] *)
Definition fetch_text_from_url (url : string) (max_chars : Z)
  : M web (option string) :=
  fun w =>
    match fetch_try url max_chars w with
    | (Ok text, w') => (Ok (Some text), w')
    | (Raise _, w') => (Ok None, w')
    end.

End Fetch.

(** ** The Generate tab

    The handler from line 191 on: the interview row has been created and its
    identifier, or [None], is [id]. *)

(** What the handler shows: the notice that the curated sources are used and
    the closing message with the number of questions. *)
Inductive ui_event : Type :=
  | InfoDefaultSources
  | SuccessSaved (n_q : nat).

Definition default_lookup : gmap string (list string) :=
  list_to_map
    [ ("devops", ["https://aws.amazon.com/devops/what-is-devops/"]);
      ("cloud", ["https://azure.microsoft.com/en-us/overview/what-is-cloud-computing/"]);
      ("rpa", ["https://www.uipath.com/rpa/robotic-process-automation"]) ].

Definition local_fallback_text (topic : string) : string :=
  "This is a fallback paragraph about " +:+ topic +:+
  ". Focus on real-world constraints, scaling, security, and maintainability.".

(** [[u.strip() for u in (extra_urls.splitlines() if extra_urls else []) if u.strip()]] *)
Definition parse_urls (extra_urls : string) : list string :=
  map Str.strip
    (List.filter (fun u => Str.truthy (Str.strip u))
       (if Str.truthy extra_urls then Str.splitlines extra_urls else [])).

Section Generate.
Context {R : Random} {N : Nltk} {H : Http} {S : Store}.

(** The state the handler works on.  [w_inserts] records, in order, the row
    lists handed to [insert(...).execute()] on the questions table, each
    with what the call did. *)
Record world : Type := {
  w_rng : rng;
  w_web : web;
  w_db : db;
  w_inserts : list (list question * execute_outcome);
  w_ui : list ui_event
}.

Definition in_rng {A : Type} (m : M rng A) : M world A :=
  fun w =>
    let '(r, g) := m (w_rng w) in
    (r, {| w_rng := g; w_web := w_web w; w_db := w_db w;
           w_inserts := w_inserts w; w_ui := w_ui w |}).

Definition in_web {A : Type} (m : M web A) : M world A :=
  fun w =>
    let '(r, x) := m (w_web w) in
    (r, {| w_rng := w_rng w; w_web := x; w_db := w_db w;
           w_inserts := w_inserts w; w_ui := w_ui w |}).

Definition show (e : ui_event) : M world unit :=
  fun w =>
    (Ok tt, {| w_rng := w_rng w; w_web := w_web w; w_db := w_db w;
               w_inserts := w_inserts w; w_ui := w_ui w ++ [e] |}).

(** [supabase.table("questions").insert(rows).execute()], the response
    dropped. *)
Definition insert_questions (rows : list question) : M world unit :=
  fun w =>
    let '(o, d) := questions_insert rows (w_db w) in
    let w' := {| w_rng := w_rng w; w_web := w_web w; w_db := d;
                 w_inserts := w_inserts w ++ [(rows, o)]; w_ui := w_ui w |} in
    match o with
    | Executed _ => (Ok tt, w')
    | ExecuteRaised => (Raise APIError, w')
    end.

(** The loops of lines 193-196 and 206-209: the URLs whose fetch gives a
    non-empty text, with that text. *)
Fixpoint fetch_seeds (urls : list string) : M web (list (string * string)) :=
  match urls with
  | [] => ret []
  | u :: rest =>
      t <~ fetch_text_from_url u 2000;;
      more <~ fetch_seeds rest;;
      ret (match t with
           | Some t => if Str.truthy t then (u, t) :: more else more
           | None => more
           end)
  end.

(** [topic.lower().split()[0]] *)
Definition topic_key (topic : string) : M world string :=
  match Str.split (Str.lower topic) with
  | [] => raise IndexError
  | key :: _ => ret key
  end.

(** Lines 192-212: [seed_texts]. *)
Definition build_seed_texts (topic : string) (urls : list string)
  : M world (list (string * string)) :=
  seed_texts <~ in_web (fetch_seeds urls);;
  seed_texts <~
    match seed_texts with
    | [] =>
        show InfoDefaultSources;;;
        key <~ topic_key topic;;
        in_web (fetch_seeds (default [] (default_lookup !! key)))
    | _ => ret seed_texts
    end;;
  match seed_texts with
  | [] => ret [("local_fallback", local_fallback_text topic)]
  | _ => ret seed_texts
  end.

(** Lines 215-224: [n] rounds of the loop, from the pending batch
    [saved_qs]; the result is the batch pending at the end. *)
Fixpoint generation_loop (id : option string) (topic : string)
    (seed_texts : list (string * string)) (n : nat) (saved_qs : list question)
  : M world (list question) :=
  match n with
  | 0 => ret saved_qs
  | Datatypes.S n' =>
      seed <~ in_rng (random_choice seed_texts);;
      let '(src_url, text) := seed in
      q <~ in_rng (generate_question_from_text text topic);;
      q <~ in_rng (paraphrase_simple q);;
      let saved_qs := (saved_qs ++ [Build_question id topic q src_url])%list in
      saved_qs <~
        (if 15 <=? length saved_qs
         then insert_questions saved_qs;;; ret []
         else ret saved_qs);;
      generation_loop id topic seed_texts n' saved_qs
  end.

(** Lines 225-226: the last, partial batch. *)
Definition flush (saved_qs : list question) : M world unit :=
  match saved_qs with
  | [] => ret tt
  | _ => insert_questions saved_qs
  end.

(** Lines 191-227, for the interview row [id]. *)
Definition generate_btn (id : option string) (topic extra_urls : string)
    (n_q : nat) : M world unit :=
  let urls := parse_urls extra_urls in
  seed_texts <~ build_seed_texts topic urls;;
  saved_qs <~ generation_loop id topic seed_texts n_q [];;
  flush saved_qs;;;
  show (SuccessSaved n_q).

End Generate.

(** ** Term extraction as the specification words it

    Tokens tagged with a noun category or an adjective category and longer
    than 3 characters, duplicates removed preserving first-seen order, at
    most 3.  To be compared with [chosen_nouns]. *)

Section ExtractSpec.
Context {N : Nltk}.

(** Duplicates removed, first-seen order preserved: the element at
    position [i] stays when it occurs at no earlier position. *)
Definition first_seen (l : list string) : list string :=
  omap (fun i =>
          match l !! i with
          | Some x => if bool_decide (x ∈ take i l) then None else Some x
          | None => None
          end)
       (seq 0 (length l)).

(** The extraction for a given choice of the tags that are kept. *)
Definition extract_terms_by (keep : string -> bool) (para : string)
  : list string :=
  let tags := pos_tag (word_tokenize para) in
  let kept :=
    map fst
      (List.filter
         (fun wt => keep (snd wt) && (3 <? String.length (fst wt)))
         tags) in
  take 3 (first_seen kept).

(** As worded: noun and adjective categories. *)
Definition extract_terms_spec : string -> list string :=
  extract_terms_by is_noun_or_adj.

(** Noun categories only. *)
Definition extract_nouns_spec : string -> list string :=
  extract_terms_by (fun t => Str.startswith t "NN").

End ExtractSpec.

(** ** Small collaborators to run the program on *)

Module Demo.

(** A generator that reads its draws from a tape: a draw [d] is the float
    [d mod 100 / 100], the index [d mod n], the rotation by [d]. *)
Definition tape : Random := {|
  rng := list nat;
  random_random g :=
    match g with
    | [] => (0%Q, [])
    | d :: g' => ((Z.of_nat (d mod 100) # 100)%Q, g')
    end;
  randbelow n g :=
    match g with
    | [] => (0, [])
    | d :: g' => (d mod n, g')
    end;
  random_shuffle l g :=
    match g with
    | [] => (l, [])
    | d :: g' => (rotate d l, g')
    end
|}.

Definition nouns : list string :=
  ["Kubernetes"; "clusters"; "resource"; "allocation"; "monitoring";
   "production"; "scenario"; "trade-offs"; "risks"; "challenge";
   "technology"; "source"; "strategy"; "paragraph"; "constraints";
   "security"; "maintainability"; "context"].

Definition adjectives : list string :=
  ["careful"; "scalable"; "advanced"; "non-obvious"; "real-world"; "top"].

Definition tag_of (w : string) : string :=
  if bool_decide (w ∈ nouns) then "NN"
  else if bool_decide (w ∈ adjectives) then "JJ"
  else "VB".

Definition thesaurus (w : string) : list (list string) :=
  if String.eqb w "risks" then [["risks"; "hazards"]; ["Risks"; "perils"]]
  else if String.eqb w "scenario" then [["scenario"; "set_of_events"]]
  else if String.eqb w "top" then [["top"]]
  else [].

(** Names of [nltk.tokenize]. *)
Definition tokenize_names : list string :=
  ["sent_tokenize"; "word_tokenize"; "wordpunct_tokenize"; "regexp_tokenize";
   "casual_tokenize"; "line_tokenize"; "blankline_tokenize"].

(** Sentences end at a full stop; words are separated by white space. *)
Definition nltk : Nltk := {|
  tokenize_has name := bool_decide (name ∈ tokenize_names);
  sent_tokenize s :=
    List.filter Str.truthy (map Str.strip (Str.split_on "." s));
  word_tokenize := Str.split;
  pos_tag ws := map (fun w => (w, tag_of w)) ws;
  wordnet_synsets := thesaurus
|}.

(** A parsed page: the paragraphs of its article element, if it has one,
    and all its paragraphs. *)
Record page : Type := {
  page_article : option (list string);
  page_paras : list string
}.

Definition k8s_sentence : string :=
  "Kubernetes clusters require careful resource allocation and monitoring.".

(** Three addresses answer: a page with an article, a page without, and a
    page that is not found; any other request raises.  The state counts
    the requests. *)
Definition http : Http := {|
  web := nat;
  requests_get url w :=
    (if String.eqb url "https://example.com/article"
     then GetResponse 200 "article-page"
     else if String.eqb url "https://example.com/plain"
     then GetResponse 200 "plain-page"
     else if String.eqb url "https://example.com/gone"
     then GetResponse 404 "plain-page"
     else GetRaised, Datatypes.S w);
  tag := page;
  BeautifulSoup body :=
    if String.eqb body "article-page"
    then Some {| page_article := Some [k8s_sentence; "More."];
                 page_paras := ["Menu"; k8s_sentence; "More."; "Footer"] |}
    else if String.eqb body "plain-page"
    then Some {| page_article := None; page_paras := ["One"; "Two"] |}
    else None;
  find_article t :=
    match page_article t with
    | Some ps => Some {| page_article := None; page_paras := ps |}
    | None => None
    end;
  find_all_p t := map (fun p => {| page_article := None; page_paras := [p] |}) (page_paras t);
  get_text t := Str.join " " (page_paras t)
|}.

(** A table that accepts every insert. *)
Definition table : Store := {|
  db := list question;
  questions_insert rows d := (Executed 201, (d ++ rows)%list)
|}.


Definition start {S : Store} (g : list nat) (d : @db S)
  : @world tape http S :=
  {| w_rng := g : @rng tape; w_web := 0 : @web http; w_db := d;
     w_inserts := []; w_ui := [] |}.

(** A run of the handler on these, from a given tape and table. *)
Definition run (S : Store) (d : @db S) (topic extra_urls : string) (n_q : nat) :=
  @generate_btn tape nltk http S (Some "iv-1") topic extra_urls n_q
    (start [3; 50; 7; 99; 12; 1; 0; 27; 5] d).

End Demo.

(** ** The guest identity

    Lines 159-161, run when no signed-in user is found: the identifier is
    "guest_" followed by the guest id kept in the session, or by a fresh
    four-digit number when the session keeps none; it then becomes the guest
    id kept in the session. *)

Section Guest.
Context {R : Random}.

(** [random.randint(a, b)]: [a] plus a draw below the width of the range. *)
Definition randint (a b : nat) : M rng nat :=
  i <~ lift (randbelow (b - a + 1));;
  ret (a + i).

(** [str(n)] for a natural number. *)
Definition str_of_nat (n : nat) : string :=
  NilEmpty.string_of_uint (Nat.to_uint n).

(** One run of the script in guest mode, from the guest id of the session:
    the current user and the guest id left in the session. *)
Definition guest_user (guest_id : option string) : M rng (string * option string) :=
  suffix <~
    match guest_id with
    | Some s =>
        if Str.truthy s then ret s
        else (n <~ randint 1000 9999;; ret (str_of_nat n))
    | None => n <~ randint 1000 9999;; ret (str_of_nat n)
    end;;
  let current_user := "guest_" +:+ suffix in
  ret (current_user, Some current_user).

(** [k] runs of the script one after the other in the same session: the
    current user of each run, and the guest id left at the end. *)
Fixpoint guest_runs (k : nat) (guest_id : option string)
  : M rng (list string * option string) :=
  match k with
  | 0 => ret ([], guest_id)
  | Datatypes.S k' =>
      u <~ guest_user guest_id;;
      rest <~ guest_runs k' (snd u);;
      ret (fst u :: fst rest, snd rest)
  end.

End Guest.

(** ** The Read / Topic tab

    Lines 343-378: the sources are the page of the caller, or two fixed pages
    when the caller names none; for each pair a source is drawn, a question
    composed from it and the head of its text paraphrased as the answer, and
    the question is inserted as a row of its own. *)

(** What the tab shows: the failure notice, the count of sources and pairs,
    and for each pair its number, question, source and answer. *)
Inductive read_event : Type :=
  | ErrorNoSources
  | SuccessFetched (n_sources n_pair : nat)
  | ShowPair (i : nat) (q src_url a : string).

Definition fallback_urls : list string :=
  [ "https://kubernetes.io/docs/concepts/overview/what-is-kubernetes/";
    "https://aws.amazon.com/containers/what-is-kubernetes/" ].

Section ReadTab.
Context {R : Random} {N : Nltk} {H : Http} {S : Store}.

(** The state of the tab; [r_inserts] records the inserts as [w_inserts]
    does. *)
Record read_world : Type := {
  r_rng : rng;
  r_web : web;
  r_db : db;
  r_inserts : list (list question * execute_outcome);
  r_ui : list read_event
}.

Definition read_in_rng {A : Type} (m : M rng A) : M read_world A :=
  fun w =>
    let '(r, g) := m (r_rng w) in
    (r, {| r_rng := g; r_web := r_web w; r_db := r_db w;
           r_inserts := r_inserts w; r_ui := r_ui w |}).

Definition read_in_web {A : Type} (m : M web A) : M read_world A :=
  fun w =>
    let '(r, x) := m (r_web w) in
    (r, {| r_rng := r_rng w; r_web := x; r_db := r_db w;
           r_inserts := r_inserts w; r_ui := r_ui w |}).

Definition read_show (e : read_event) : M read_world unit :=
  fun w =>
    (Ok tt, {| r_rng := r_rng w; r_web := r_web w; r_db := r_db w;
               r_inserts := r_inserts w; r_ui := r_ui w ++ [e] |}).

(** [supabase.table("questions").insert({...}).execute()] for one row, the
    response dropped. *)
Definition insert_question (row : question) : M read_world unit :=
  fun w =>
    let '(o, d) := questions_insert [row] (r_db w) in
    let w' := {| r_rng := r_rng w; r_web := r_web w; r_db := d;
                 r_inserts := r_inserts w ++ [([row], o)]; r_ui := r_ui w |} in
    match o with
    | Executed _ => (Ok tt, w')
    | ExecuteRaised => (Raise APIError, w')
    end.

(** Lines 355-358: the fixed pages that give a non-empty text, each cut to
    3000 characters. *)
Fixpoint fetch_fallbacks (urls : list string) : M web (list (string * string)) :=
  match urls with
  | [] => ret []
  | u :: rest =>
      t <~ fetch_text_from_url u 3000;;
      more <~ fetch_fallbacks rest;;
      ret (match t with
           | Some t => if Str.truthy t then (u, t) :: more else more
           | None => more
           end)
  end.

(** Lines 344-358: [sources]. *)
Definition read_sources (url_read : string) : M web (list (string * string)) :=
  if Str.truthy url_read then
    text <~ fetch_text_from_url url_read 4000;;
    ret (match text with
         | Some t => if Str.truthy t then [(url_read, t)] else []
         | None => []
         end)
  else fetch_fallbacks fallback_urls.

(** Lines 364-378: the rounds [i], [i + 1], ... of the loop, [n] of them. *)
Fixpoint read_loop (id : option string) (topic_read : string)
    (sources : list (string * string)) (n i : nat) : M read_world unit :=
  match n with
  | 0 => ret tt
  | Datatypes.S n' =>
      source <~ read_in_rng (random_choice sources);;
      let '(src_url, text) := source in
      q <~ read_in_rng (generate_question_from_text text topic_read);;
      a <~ read_in_rng (paraphrase_simple (Str.slice_to 400 text));;
      insert_question (Build_question id topic_read q src_url);;;
      read_show (ShowPair i q src_url a);;;
      read_loop id topic_read sources n' (Datatypes.S i)
  end.

(** Lines 343-378, with [id] the interview kept in the session, if any. *)
Definition fetch_and_prepare (id : option string) (topic_read url_read : string)
    (n_pair : nat) : M read_world unit :=
  sources <~ read_in_web (read_sources url_read);;
  match sources with
  | [] => read_show ErrorNoSources
  | _ =>
      read_show (SuccessFetched (length sources) n_pair);;;
      read_loop id topic_read sources n_pair 0
  end.

End ReadTab.

(** ** A run of the Read / Topic tab on the small collaborators *)

Module DemoRead.

Definition start (g : list nat) : @read_world Demo.tape Demo.http Demo.table :=
  {| r_rng := g : @rng Demo.tape; r_web := 0 : @web Demo.http;
     r_db := [] : @db Demo.table; r_inserts := []; r_ui := [] |}.

Definition run (topic_read url_read : string) (n_pair : nat) :=
  @fetch_and_prepare Demo.tape Demo.nltk Demo.http Demo.table
    (Some "iv-1") topic_read url_read n_pair (start [3; 50; 7; 99; 12; 1; 0; 27; 5]).

End DemoRead.

(** ** Predicates on strings used in the statements *)

(** Some character of [s] is a line boundary. *)
Fixpoint has_linebreak (s : string) : bool :=
  match s with
  | EmptyString => false
  | String c s' => Str.is_linebreak c || has_linebreak s'
  end.

(** * Properties *)

(** ** Strings *)

Lemma isspace_lower_char (c : ascii) :
  Str.isspace (Str.lower_char c) = Str.isspace c.
Proof. destruct c as [[] [] [] [] [] [] [] []]; reflexivity. Qed.

Lemma blank_lower (s : string) : Str.blank (Str.lower s) = Str.blank s.
Proof.
  induction s as [|c s IH]; simpl; [reflexivity|].
  rewrite isspace_lower_char, IH. reflexivity.
Qed.

Lemma split_go_nonempty_cur (c : ascii) (cur : list ascii) (s : string) :
  Str.split_go (c :: cur) s <> [].
Proof.
  revert c cur. induction s as [|d s IH]; intros c cur; simpl.
  - discriminate.
  - destruct (Str.isspace d); [discriminate | apply IH].
Qed.

(** [s.split()] is empty exactly when [s] has no character other than white
    space. *)
Lemma split_nil_iff_blank (s : string) :
  Str.split s = [] <-> Str.blank s = true.
Proof.
  unfold Str.split. induction s as [|c s IH]; simpl.
  - split; reflexivity.
  - destruct (Str.isspace c); simpl.
    + exact IH.
    + split; [|discriminate].
      intros E. exfalso. exact (split_go_nonempty_cur _ _ _ E).
Qed.

Lemma take_length_le (n : nat) (s : string) :
  String.length (Str.take n s) <= n.
Proof.
  revert s. induction n as [|n IH]; intros [|c s]; simpl; try lia.
  specialize (IH s). lia.
Qed.

Lemma join_nil (sep : string) : Str.join sep [] = "".
Proof. reflexivity. Qed.

(** ** Running computations *)

Ltac splits := repeat match goal with |- _ /\ _ => split end.

Lemma bind_inv {S A B : Type} (m : M S A) (k : A -> M S B) s r s2 :
  bind m k s = (r, s2) ->
  (exists a s1, m s = (Ok a, s1) /\ k a s1 = (r, s2)) \/
  (exists e, m s = (Raise e, s2) /\ r = Raise e).
Proof.
  unfold bind. destruct (m s) as [[a|e] s1]; intros E.
  - left. eauto.
  - right. inversion E; subst. eauto.
Qed.

Lemma bind_ok {S A B : Type} (m : M S A) (k : A -> M S B) s a s1 :
  m s = (Ok a, s1) -> bind m k s = k a s1.
Proof. unfold bind. intros ->. reflexivity. Qed.

Lemma bind_raise {S A B : Type} (m : M S A) (k : A -> M S B) s e s1 :
  m s = (Raise e, s1) -> bind m k s = (Raise e, s1).
Proof. unfold bind. intros ->. reflexivity. Qed.

(** ** random.choice *)

Section RandomFacts.
Context {R : Random}.

(** What [random.choice] returns is an element of the sequence. *)
Lemma random_choice_elem {A : Type} (seq : list A) g x g' :
  random_choice seq g = (Ok x, g') -> x ∈ seq.
Proof.
  unfold random_choice. destruct seq as [|a seq]; [discriminate|].
  intros E. apply bind_inv in E as [(i & g1 & _ & E)|(e & _ & E)]; [|discriminate].
  destruct ((a :: seq) !! i) as [y|] eqn:L; [|discriminate].
  inversion E; subst. eapply list_elem_of_lookup_2; eauto.
Qed.

(** Whatever it raises is an IndexError. *)
Lemma random_choice_raise {A : Type} (seq : list A) g e g' :
  random_choice seq g = (Raise e, g') -> e = IndexError.
Proof.
  unfold random_choice. destruct seq as [|a seq].
  - intros E. inversion E. reflexivity.
  - intros E. apply bind_inv in E as [(i & g1 & _ & E)|(e' & E & _)].
    + destruct ((a :: seq) !! i); inversion E. reflexivity.
    + unfold lift in E. destruct (randbelow _ g). discriminate.
Qed.

Context {RL : RandomLaws R}.

(** On a non-empty sequence it returns. *)
Lemma random_choice_ok {A : Type} (seq : list A) g :
  seq <> [] -> exists x g', random_choice seq g = (Ok x, g').
Proof.
  intros Hne. unfold random_choice. destruct seq as [|a seq]; [congruence|].
  unfold bind, lift.
  pose proof (randbelow_lt (length (a :: seq)) g ltac:(simpl; lia)) as Hlt.
  destruct (randbelow (length (a :: seq)) g) as [i g1]. simpl in Hlt.
  destruct (lookup_lt_is_Some_2 (a :: seq) i Hlt) as [x Hx].
  rewrite Hx. eauto.
Qed.

End RandomFacts.

(** ** The paraphraser *)

Section ParaphraseFacts.
Context {R : Random} {N : Nltk}.

Lemma other_lemmas_elem (w x : string) (lemmas : list string) :
  x ∈ other_lemmas w lemmas -> x ∈ lemmas /\ Str.lower x <> Str.lower w.
Proof.
  unfold other_lemmas. intros Hx.
  apply list_elem_of_In, filter_In in Hx as [Hin Hneq].
  split; [apply list_elem_of_In; exact Hin|].
  apply negb_true_iff, String.eqb_neq in Hneq. exact Hneq.
Qed.

(** One word: it stays, or it was tagged noun or adjective and becomes a
    lemma name of its synsets that differs from it when case is ignored. *)
Lemma substitute_word_spec (w t : string) g w' g' :
  substitute_word w t g = (Ok w', g') ->
  w' = w \/
  (is_noun_or_adj t = true /\
   w' ∈ lemma_names (wordnet_synsets w) /\
   Str.lower w' <> Str.lower w).
Proof.
  unfold substitute_word. destruct (is_noun_or_adj t) eqn:Ht.
  2:{ intros E. inversion E. left; reflexivity. }
  intros E. apply bind_inv in E as [(r & g1 & _ & E)|(e & _ & E)]; [|discriminate].
  destruct (Qlt_bool r p_sub).
  2:{ inversion E. left; reflexivity. }
  destruct (wordnet_synsets w) as [|s syns] eqn:Hs.
  { inversion E. left; reflexivity. }
  destruct (other_lemmas w (lemma_names (s :: syns))) as [|x xs] eqn:Ho.
  { inversion E. left; reflexivity. }
  apply random_choice_elem in E. rewrite <- Ho in E.
  apply other_lemmas_elem in E as [Hin Hneq]. right. auto.
Qed.

Lemma rewrite_words_spec (tags : list (string * string)) g new_words g' :
  rewrite_words tags g = (Ok new_words, g') ->
  Forall2
    (fun wt w' =>
       w' = fst wt \/
       (is_noun_or_adj (snd wt) = true /\
        w' ∈ lemma_names (wordnet_synsets (fst wt)) /\
        Str.lower w' <> Str.lower (fst wt)))
    tags new_words.
Proof.
  revert g new_words g'. induction tags as [|[w t] tags IH]; intros g new_words g' E.
  - inversion E. constructor.
  - simpl in E.
    apply bind_inv in E as [(w' & g1 & Hw & E)|(e & _ & E)]; [|discriminate].
    apply bind_inv in E as [(ws & g2 & Hws & E)|(e & _ & E)]; [|discriminate].
    inversion E; subst. constructor.
    + apply substitute_word_spec in Hw. exact Hw.
    + eapply IH; eauto.
Qed.

Context {RL : RandomLaws R}.

Lemma substitute_word_ok (w t : string) g :
  exists w' g', substitute_word w t g = (Ok w', g').
Proof.
  unfold substitute_word. destruct (is_noun_or_adj t); [|unfold ret; eauto].
  unfold bind, random_float, lift. destruct (random_random g) as [r g1].
  destruct (Qlt_bool r p_sub); [|unfold ret; eauto].
  destruct (wordnet_synsets w) as [|s syns]; [unfold ret; eauto|].
  destruct (other_lemmas w (lemma_names (s :: syns))) as [|x xs] eqn:Ho;
    [unfold ret; eauto|].
  apply random_choice_ok. discriminate.
Qed.

Lemma rewrite_words_ok (tags : list (string * string)) g :
  exists new_words g', rewrite_words tags g = (Ok new_words, g').
Proof.
  revert g. induction tags as [|[w t] tags IH]; intros g; simpl.
  - unfold ret. eauto.
  - destruct (substitute_word_ok w t g) as (w' & g1 & Hw).
    destruct (IH g1) as (ws & g2 & Hws).
    rewrite (bind_ok _ _ _ _ _ Hw), (bind_ok _ _ _ _ _ Hws). unfold ret. eauto.
Qed.

End ParaphraseFacts.

(** C6.  For every sentence the word loop returns one word per tagged token;
    a token whose tag is outside the noun and adjective categories is left
    as it is, and a word that differs from its token replaces a token tagged
    noun or adjective by a lemma name of its synsets whose lower-case form
    differs from the token's. *)
Theorem substitution_only_nouns_adjectives
    {R : Random} {N : Nltk} (RL : RandomLaws R) (sent : string) (g : rng) :
  let tags := pos_tag (word_tokenize sent) in
  exists new_words g',
    rewrite_words tags g = (Ok new_words, g') /\
    length new_words = length tags /\
    forall i w t w',
      tags !! i = Some (w, t) -> new_words !! i = Some w' ->
      (is_noun_or_adj t = false -> w' = w) /\
      (w' <> w ->
       is_noun_or_adj t = true /\
       w' ∈ lemma_names (wordnet_synsets w) /\
       Str.lower w' <> Str.lower w).
Proof.
  intros tags.
  destruct (rewrite_words_ok tags g) as (ws & g' & Hws).
  pose proof (rewrite_words_spec _ _ _ _ Hws) as HF.
  exists ws, g'. split; [exact Hws|]. split.
  { symmetry. eapply Forall2_length; eauto. }
  intros i w t w' Ht Hw.
  destruct (Forall2_lookup_lr _ _ _ _ _ _ HF Ht Hw) as [->|(Hna & Hin & Hneq)]; simpl in *.
  - split; [reflexivity | congruence].
  - split; [congruence | auto].
Qed.

(** ** Term extraction *)

(** [dict.fromkeys] with [seen] already in the dictionary keeps the element
    at position [i] when it is neither in [seen] nor at an earlier
    position. *)
Lemma dict_fromkeys_go_positional (seen l : list string) :
  dict_fromkeys_go seen l =
  omap (fun i =>
          match l !! i with
          | Some x => if bool_decide (x ∈ seen ++ take i l) then None else Some x
          | None => None
          end)
       (seq 0 (length l)).
Proof.
  revert seen. induction l as [|x l IH]; intros seen; [reflexivity|].
  cbn [length seq dict_fromkeys_go]. csimpl.
  rewrite app_nil_r.
  assert (Hrest : forall seen',
             (forall y, y ∈ seen' <-> y ∈ seen ++ [x]) ->
             dict_fromkeys_go seen' l =
             omap (fun i =>
                     match (x :: l) !! i with
                     | Some y =>
                         if bool_decide (y ∈ seen ++ take i (x :: l))
                         then None else Some y
                     | None => None
                     end)
                  (seq 1 (length l))).
  { intros seen' Hs. rewrite IH, <- fmap_S_seq.
    apply list_omap_ext, Forall2_fmap_r, Forall_Forall2_diag, Forall_forall.
    intros i _. simpl. destruct (l !! i) as [y|]; [|reflexivity].
    rewrite (bool_decide_ext (y ∈ seen' ++ take i l) (y ∈ seen ++ x :: take i l));
      [reflexivity|].
    specialize (Hs y). rewrite elem_of_app, list_elem_of_singleton in Hs.
    rewrite !elem_of_app, elem_of_cons. tauto. }
  destruct (bool_decide (x ∈ seen)) eqn:Hx.
  - apply Hrest. intros y. apply bool_decide_eq_true in Hx.
    rewrite elem_of_app, list_elem_of_singleton. split; [tauto|].
    intros [Hy|Hy]; [exact Hy | subst y; exact Hx].
  - f_equal. apply Hrest. intros y.
    rewrite elem_of_cons, elem_of_app, list_elem_of_singleton. tauto.
Qed.

Lemma dict_fromkeys_first_seen (l : list string) : dict_fromkeys l = first_seen l.
Proof. apply dict_fromkeys_go_positional. Qed.

(** C3, as worded, fails: an adjective longer than 3 characters is a term of
    the worded extraction and is not among the chosen terms. *)
Lemma extraction_skips_adjectives :
  @extract_terms_spec Demo.nltk "careful scalable clusters"
    = ["careful"; "scalable"; "clusters"] /\
  @chosen_nouns Demo.nltk "careful scalable clusters" = ["clusters"] /\
  @chosen_nouns Demo.nltk "careful scalable clusters"
    <> @extract_terms_spec Demo.nltk "careful scalable clusters".
Proof. vm_compute. repeat split; discriminate. Qed.

(** C3, amended.  For every paragraph the chosen terms are the tokens whose
    tag starts with NN (the noun categories) and that are longer than 3
    characters, duplicates removed preserving first-seen order, cut to the
    first 3: at most 3 terms, each one such a token. *)
Theorem chosen_nouns_are_first_seen_nouns {N : Nltk} (para : string) :
  chosen_nouns para = extract_nouns_spec para /\
  length (chosen_nouns para) <= 3 /\
  forall w, w ∈ chosen_nouns para ->
    exists t, (w, t) ∈ pos_tag (word_tokenize para) /\
      Str.startswith t "NN" = true /\ 3 < String.length w.
Proof.
  assert (E : chosen_nouns para = extract_nouns_spec para).
  { unfold chosen_nouns, extract_nouns_spec, extract_terms_by, nouns_of.
    rewrite dict_fromkeys_first_seen. reflexivity. }
  split; [exact E|]. split.
  { unfold chosen_nouns. rewrite length_take. lia. }
  intros w Hw. rewrite E in Hw.
  unfold extract_nouns_spec, extract_terms_by in Hw.
  apply elem_of_take in Hw as (j & Hw & _).
  apply list_elem_of_lookup_2 in Hw.
  unfold first_seen in Hw. apply list_elem_of_omap in Hw as (i & _ & Hi).
  match type of Hi with context [?l !! i] => destruct (l !! i) as [x|] eqn:Hl end;
    [|discriminate].
  destruct (bool_decide _); [discriminate|]. inversion Hi; subst x.
  apply list_elem_of_lookup_2, list_elem_of_fmap in Hl as ([w' t] & -> & Hin).
  apply list_elem_of_In, filter_In in Hin as [Hin Hk]. simpl in *.
  apply andb_true_iff in Hk as [Ht Hlen]. apply Nat.ltb_lt in Hlen.
  exists t. split; [apply list_elem_of_In; exact Hin | auto].
Qed.

(** ** The fetcher *)

Section FetchFacts.
Context {H : Http}.

(** The fetcher returns, whatever the request and the parser do. *)
Lemma fetch_text_from_url_returns (url : string) (max_chars : Z) (w : web) :
  exists o w', fetch_text_from_url url max_chars w = (Ok o, w').
Proof.
  unfold fetch_text_from_url.
  destruct (fetch_try url max_chars w) as [[text|e] w']; eauto.
Qed.

Lemma truncate_length (max_chars : Z) (text : string) :
  (0 <= max_chars)%Z ->
  (Z.of_nat (String.length (truncate max_chars text)) <= max_chars)%Z.
Proof.
  intros Hm. unfold truncate.
  destruct (max_chars <? Z.of_nat (String.length text))%Z eqn:E.
  - unfold Str.slice_to. destruct (0 <=? max_chars)%Z eqn:E0; [|lia].
    pose proof (take_length_le (Z.to_nat max_chars) text). lia.
  - lia.
Qed.

End FetchFacts.

(** C8.  For every URL and every [max_chars] that is not negative,
    the fetcher returns and does not raise; it returns nothing when the
    request raises, when the status is a client or server error, and when the
    parser raises; otherwise it returns the texts of the paragraphs of the
    article element when the page has one, of all paragraphs of the page when
    it has none, joined by spaces and cut to the first [max_chars]
    characters, so that the length is at most [max_chars]. *)
Theorem fetch_text_from_url_spec {H : Http}
    (url : string) (max_chars : Z) (w : web) :
  (0 <= max_chars)%Z ->
  exists o w',
    fetch_text_from_url url max_chars w = (Ok o, w') /\
    w' = snd (requests_get url w) /\
    match fst (requests_get url w) with
    | GetRaised => o = None
    | GetResponse status_code body =>
        if ((400 <=? status_code) && (status_code <? 600))%Z then o = None
        else
          match BeautifulSoup body with
          | None => o = None
          | Some soup =>
              let full :=
                match find_article soup with
                | Some article => Str.join " " (map get_text (find_all_p article))
                | None => Str.join " " (map get_text (find_all_p soup))
                end in
              exists text,
                o = Some text /\
                text = (if (Z.of_nat (String.length full) <=? max_chars)%Z
                        then full else Str.take (Z.to_nat max_chars) full) /\
                (Z.of_nat (String.length text) <= max_chars)%Z
          end
    end.
Proof.
  intros Hm. unfold fetch_text_from_url, fetch_try.
  destruct (requests_get url w) as [[|code body] w1]; simpl.
  { eexists _, _. repeat split. }
  unfold bind, raise_for_status.
  destruct ((400 <=? code) && (code <? 600))%Z.
  { unfold raise. eexists _, _. repeat split. }
  unfold ret. destruct (BeautifulSoup body) as [soup|].
  2:{ unfold raise. eexists _, _. repeat split. }
  eexists _, _. split; [reflexivity|]. split; [reflexivity|].
  eexists. split; [reflexivity|]. split.
  - unfold truncate, page_text, Str.slice_to.
    destruct (find_article soup);
      match goal with |- context [String.length ?f] =>
        destruct (Z.ltb_spec max_chars (Z.of_nat (String.length f)));
        destruct (Z.leb_spec (Z.of_nat (String.length f)) max_chars); try lia
      end; try reflexivity;
      destruct (Z.leb_spec 0 max_chars); try lia; reflexivity.
  - apply truncate_length. exact Hm.
Qed.

Lemma fetch_text_from_url_spec_witness :
  exists o w',
    @fetch_text_from_url Demo.http "https://example.com/article" 20 0 = (Ok o, w') /\
    o = Some "Kubernetes clusters ".
Proof.
  destruct (@fetch_text_from_url_spec Demo.http "https://example.com/article" 20 0
              ltac:(lia)) as (o & w' & E & _ & Hs).
  exists o, w'. split; [exact E|].
  vm_compute in Hs. destruct Hs as (text & -> & -> & _). reflexivity.
Defined.

(** ** The composer *)

Lemma paragraphs_nonempty (text : string) : paragraphs text <> [].
Proof.
  unfold paragraphs.
  destruct (List.filter _ (Str.split_on "010" text)); discriminate.
Qed.

Lemma generate_question_from_text_ok
    {R : Random} {N : Nltk} {RL : RandomLaws R} (text tp : string) (g : rng) :
  exists q g', generate_question_from_text text tp g = (Ok q, g').
Proof.
  unfold generate_question_from_text.
  assert (Hne : take 5 (paragraphs text) <> []).
  { pose proof (paragraphs_nonempty text).
    destruct (paragraphs text); [congruence | discriminate]. }
  destruct (random_choice_ok _ g Hne) as (para & g1 & Hc).
  rewrite (bind_ok _ _ _ _ _ Hc).
  destruct (chosen_nouns para); unfold ret; eauto.
Qed.

(** ** The handler: one step at a time *)

Section HandlerFacts.
Context {R : Random} {N : Nltk} {H : Http} {S : Store}.

Lemma in_rng_run {A : Type} (m : M rng A) (w : world) r g :
  m (w_rng w) = (r, g) ->
  in_rng m w =
    (r, {| w_rng := g; w_web := w_web w; w_db := w_db w;
           w_inserts := w_inserts w; w_ui := w_ui w |}).
Proof. unfold in_rng. intros ->. reflexivity. Qed.

Lemma in_web_run {A : Type} (m : M web A) (w : world) r x :
  m (w_web w) = (r, x) ->
  in_web m w =
    (r, {| w_rng := w_rng w; w_web := x; w_db := w_db w;
           w_inserts := w_inserts w; w_ui := w_ui w |}).
Proof. unfold in_web. intros ->. reflexivity. Qed.


End HandlerFacts.

(** ** The seed corpus *)

Section SeedFacts.
Context {R : Random} {N : Nltk} {H : Http} {S : Store}.

(** The fetch loop returns; it keeps only URLs of its list, with non-empty
    text. *)
Lemma fetch_seeds_ok (urls : list string) (x : web) :
  exists seeds x',
    fetch_seeds urls x = (Ok seeds, x') /\
    forall u t, (u, t) ∈ seeds -> u ∈ urls /\ t <> "".
Proof.
  revert x. induction urls as [|u urls IH]; intros x.
  { eexists _, _. split; [reflexivity|]. intros u t Hin.
    apply elem_of_nil in Hin. contradiction. }
  cbn [fetch_seeds].
  destruct (fetch_text_from_url_returns u 2000 x) as (o & x1 & Hf).
  destruct (IH x1) as (more & x2 & Hm & Hin).
  rewrite (bind_ok _ _ _ _ _ Hf), (bind_ok _ _ _ _ _ Hm).
  eexists _, _. split; [reflexivity|].
  intros u' t' Hin'.
  assert (Hmore : (u', t') ∈ more -> u' ∈ u :: urls /\ t' <> "").
  { intros Hx. destruct (Hin _ _ Hx). split; [right; assumption | assumption]. }
  destruct o as [[|c t]|]; simpl in Hin'; try (apply Hmore; exact Hin').
  apply elem_of_cons in Hin' as [Heq|Hx]; [|apply Hmore; exact Hx].
  inversion Heq; subst. split; [left | discriminate].
Qed.

(** URLs whose fetch never gives a non-empty text leave the loop with
    nothing. *)
Lemma fetch_seeds_nothing (urls : list string) (x : web) :
  (forall u y, u ∈ urls ->
     fst (fetch_text_from_url u 2000 y) = Ok None \/
     fst (fetch_text_from_url u 2000 y) = Ok (Some "")) ->
  fst (fetch_seeds urls x) = Ok [].
Proof.
  revert x. induction urls as [|u urls IH]; intros x Hno; [reflexivity|].
  cbn [fetch_seeds].
  assert (IH' : forall x1, fst (fetch_seeds urls x1) = Ok []).
  { intros x1. apply IH. intros u' y Hu'. apply Hno. right. exact Hu'. }
  specialize (Hno u x ltac:(left)).
  destruct (fetch_text_from_url u 2000 x) as [o x1] eqn:Hf. simpl in Hno.
  specialize (IH' x1).
  destruct (fetch_seeds urls x1) as [more x2] eqn:Hm. simpl in IH'. subst more.
  destruct Hno as [->| ->];
    rewrite (bind_ok _ _ _ _ _ Hf), (bind_ok _ _ _ _ _ Hm); reflexivity.
Qed.

(** The three ways the construction of the corpus can go: some URL of the
    caller gave text; none did and the topic has no word; none did and the
    defaults of the first word of the topic were tried, the fallback unit
    standing in when they gave nothing. *)
Lemma build_seed_texts_cases (tp : string) (urls : list string) (w : world) :
  let at_web x ui :=
    {| w_rng := w_rng w; w_web := x; w_db := w_db w;
       w_inserts := w_inserts w; w_ui := ui |} in
  exists s1 x1,
    fetch_seeds urls (w_web w) = (Ok s1, x1) /\
    ((s1 <> [] /\
      build_seed_texts tp urls w = (Ok s1, at_web x1 (w_ui w))) \/
     (s1 = [] /\ Str.split (Str.lower tp) = [] /\
      build_seed_texts tp urls w =
        (Raise IndexError, at_web x1 (w_ui w ++ [InfoDefaultSources]))) \/
     (s1 = [] /\
      exists key rest s2 x2,
        Str.split (Str.lower tp) = key :: rest /\
        fetch_seeds (default [] (default_lookup !! key)) x1 = (Ok s2, x2) /\
        build_seed_texts tp urls w =
          (Ok (match s2 with
               | [] => [("local_fallback", local_fallback_text tp)]
               | _ => s2
               end),
           at_web x2 (w_ui w ++ [InfoDefaultSources])))).
Proof.
  intros at_web. unfold build_seed_texts.
  destruct (fetch_seeds_ok urls (w_web w)) as (s1 & x1 & Hf1 & _).
  exists s1, x1. split; [exact Hf1|].
  rewrite (bind_ok _ _ _ _ _ (in_web_run _ _ _ _ Hf1)).
  destruct s1 as [|p s1].
  - right. unfold topic_key.
    destruct (Str.split (Str.lower tp)) as [|key rest] eqn:Hk.
    + left. split; [reflexivity|]. split; reflexivity.
    + right. split; [reflexivity|].
      destruct (fetch_seeds_ok (default [] (default_lookup !! key)) x1)
        as (s2 & x2 & Hf2 & _).
      exists key, rest, s2, x2. split; [reflexivity|]. split; [exact Hf2|].
      unfold bind, show, ret, in_web.
      cbn [w_rng w_web w_db w_inserts w_ui]. rewrite Hf2.
      destruct s2; reflexivity.
  - left. split; [discriminate|]. reflexivity.
Qed.

End SeedFacts.

(** ** The handler as a whole *)

Section RunFacts.
Context {R : Random} {N : Nltk} {H : Http} {S : Store}.

(** The construction of the corpus touches neither the table nor the
    record of inserts and shows at most the notice about the curated
    sources; it returns a non-empty corpus, or raises IndexError on a topic
    without a word after the URLs of the caller gave nothing. *)
Lemma build_seed_texts_spec (tp : string) (urls : list string) (w : world) :
  exists r w1 shown,
    build_seed_texts tp urls w = (r, w1) /\
    w_inserts w1 = w_inserts w /\ w_db w1 = w_db w /\ w_rng w1 = w_rng w /\
    w_ui w1 = w_ui w ++ shown /\
    (shown = [] \/ shown = [InfoDefaultSources]) /\
    match r with
    | Ok seed_texts => seed_texts <> []
    | Raise e =>
        e = IndexError /\ shown = [InfoDefaultSources] /\
        Str.blank tp = true /\
        fst (fetch_seeds urls (w_web w)) = Ok []
    end.
Proof.
  destruct (build_seed_texts_cases tp urls w) as (s1 & x1 & Hf & Hc).
  destruct Hc as [[Hne E]|[(-> & Hk & E)|(-> & key & rest & s2 & x2 & Hk & Hf2 & E)]];
    rewrite E; eexists _, _, _; (split; [reflexivity|]); cbn [w_inserts w_db w_rng w_ui].
  - splits; try reflexivity.
    + instantiate (1 := []). rewrite app_nil_r. reflexivity.
    + left. reflexivity.
    + exact Hne.
  - splits; try reflexivity.
    + right. reflexivity.
    + rewrite <- blank_lower. apply split_nil_iff_blank. exact Hk.
    + rewrite Hf. reflexivity.
  - splits; try reflexivity.
    + right. reflexivity.
    + destruct s2; discriminate.
Qed.

End RunFacts.

(** ** The tape generator obeys the laws *)

Lemma tape_laws : RandomLaws Demo.tape.
Proof.
  split.
  - intros n [|d g] Hn; simpl; [exact Hn|].
    apply Nat.mod_upper_bound. lia.
  - intros l [|d g]; simpl; [reflexivity|].
    unfold rotate. rewrite <- Permutation_app_comm, take_drop. reflexivity.
Qed.

(** C1, at the input where it fails.  With an empty topic and no URL the
    handler raises IndexError while it looks for the first word of the
    topic: no insert is made, whatever number of questions was asked for. *)
Theorem empty_topic_request_saves_nothing
    {R : Random} {N : Nltk} {H : Http} {S : Store}
    (id : option string) (n_q : nat) (w : world) :
  exists w',
    generate_btn id "" "" n_q w = (Raise IndexError, w') /\
    w_inserts w' = w_inserts w.
Proof. eexists. split; reflexivity. Qed.

(** ** The fallback chain *)

(** C7.  When no URL of the caller gives text, the topic has a first word,
    and that word in lower case is not a key of the curated map or the URLs
    the map gives for it give no text either, the corpus is the single unit
    named local_fallback with the templated paragraph on the topic. *)
Theorem local_fallback_corpus
    {R : Random} {N : Nltk} {H : Http} {S : Store}
    (tp : string) (urls : list string) (w : world) (key : string)
    (rest : list string) :
  fst (fetch_seeds urls (w_web w)) = Ok [] ->
  Str.split (Str.lower tp) = key :: rest ->
  (default_lookup !! key = None \/
   fst (fetch_seeds (default [] (default_lookup !! key))
          (snd (fetch_seeds urls (w_web w)))) = Ok []) ->
  fst (build_seed_texts tp urls w) =
    Ok [("local_fallback",
         "This is a fallback paragraph about " +:+ tp +:+
         ". Focus on real-world constraints, scaling, security, and maintainability.")].
Proof.
  intros Hno Hk Hdef.
  destruct (build_seed_texts_cases tp urls w) as (s1 & x1 & Hf & Hc).
  rewrite Hf in Hno, Hdef. cbn [fst snd] in Hno, Hdef. inversion Hno; subst s1.
  destruct Hc as [[Hne _]|[(_ & Hk' & _)|(_ & key' & rest' & s2 & x2 & Hk' & Hf2 & E)]].
  - congruence.
  - congruence.
  - rewrite Hk in Hk'. inversion Hk'; subst key' rest'.
    rewrite E. cbn [fst].
    assert (Hs2 : s2 = []).
    { destruct Hdef as [Hnone|Hnone].
      - rewrite Hnone in Hf2. unfold default in Hf2. cbn [fetch_seeds] in Hf2.
        unfold ret in Hf2. inversion Hf2. reflexivity.
      - rewrite Hf2 in Hnone. cbn [fst] in Hnone. inversion Hnone. reflexivity. }
    rewrite Hs2. reflexivity.
Qed.

(** C9.  When the URLs of the caller give no text, a topic without any
    character other than white space makes the look-up of its first word
    raise IndexError: the construction of the corpus raises, and so does the
    handler, before any insert and without the fallback unit.  A topic with a
    word gives a non-empty corpus. *)
Theorem blank_topic_raises_index_error
    {R : Random} {N : Nltk} {H : Http} {S : Store}
    (id : option string) (tp extra_urls : string) (n_q : nat) (w : world) :
  fst (fetch_seeds (parse_urls extra_urls) (w_web w)) = Ok [] ->
  if Str.blank tp then
    (exists w1,
       build_seed_texts tp (parse_urls extra_urls) w = (Raise IndexError, w1)) /\
    (exists w',
       generate_btn id tp extra_urls n_q w = (Raise IndexError, w') /\
       w_inserts w' = w_inserts w)
  else
    exists seed_texts w1,
      build_seed_texts tp (parse_urls extra_urls) w = (Ok seed_texts, w1) /\
      seed_texts <> [].
Proof.
  intros Hno.
  destruct (build_seed_texts_cases tp (parse_urls extra_urls) w) as (s1 & x1 & Hf & Hc).
  rewrite Hf in Hno. cbn [fst] in Hno. inversion Hno; subst s1.
  destruct Hc as [[Hne _]|[(_ & Hk & E)|(_ & key & rest & s2 & x2 & Hk & Hf2 & E)]].
  - congruence.
  - assert (Hb : Str.blank tp = true).
    { rewrite <- blank_lower. apply split_nil_iff_blank. exact Hk. }
    rewrite Hb. split; [eexists; exact E|].
    unfold generate_btn. rewrite (bind_raise _ _ _ _ _ E).
    eexists. split; reflexivity.
  - assert (Hb : Str.blank tp = false).
    { destruct (Str.blank tp) eqn:Hb; [|reflexivity].
      rewrite <- blank_lower in Hb. apply split_nil_iff_blank in Hb. congruence. }
    rewrite Hb, E. eexists _, _. split; [reflexivity|]. destruct s2; discriminate.
Qed.

(** ** The theorems at work on the small collaborators *)

Lemma chosen_nouns_are_first_seen_nouns_witness :
  @chosen_nouns Demo.nltk Demo.k8s_sentence
    = @extract_nouns_spec Demo.nltk Demo.k8s_sentence /\
  @chosen_nouns Demo.nltk Demo.k8s_sentence = ["Kubernetes"; "clusters"; "resource"].
Proof.
  split.
  - apply (@chosen_nouns_are_first_seen_nouns Demo.nltk Demo.k8s_sentence).
  - vm_compute. reflexivity.
Defined.

Lemma substitution_only_nouns_adjectives_witness :
  exists new_words g',
    @rewrite_words Demo.tape Demo.nltk
      (@pos_tag Demo.nltk (@word_tokenize Demo.nltk "top risks here"))
      [10; 1; 50] = (Ok new_words, g') /\
    new_words !! 2 = Some "here".
Proof.
  destruct (@substitution_only_nouns_adjectives Demo.tape Demo.nltk tape_laws
              "top risks here" [10; 1; 50])
    as (ws & g' & Hws & Hlen & Hpos).
  exists ws, g'. split; [exact Hws|].
  assert (Hlt : 2 < length ws) by (rewrite Hlen; vm_compute; lia).
  destruct (lookup_lt_is_Some_2 ws 2 Hlt) as [w' Hw'].
  rewrite Hw'. f_equal.
  apply (Hpos 2 "here" "VB" w'); [reflexivity | exact Hw' | reflexivity].
Defined.

Lemma local_fallback_corpus_witness :
  fst (@build_seed_texts Demo.tape Demo.http Demo.table "Quantum computing"
         ["https://example.com/gone"] (@Demo.start Demo.table [] []))
  = Ok [("local_fallback",
         "This is a fallback paragraph about Quantum computing. Focus on real-world constraints, scaling, security, and maintainability.")].
Proof.
  apply (@local_fallback_corpus Demo.tape Demo.nltk Demo.http Demo.table
           "Quantum computing" ["https://example.com/gone"] (@Demo.start Demo.table [] [])
           "quantum" ["computing"]).
  - vm_compute. reflexivity.
  - vm_compute. reflexivity.
  - left. vm_compute. reflexivity.
Defined.

Lemma blank_topic_raises_index_error_witness :
  exists w',
    Demo.run Demo.table [] "  " "" 30 = (Raise IndexError, w') /\
    w_inserts w' = [].
Proof.
  apply (@blank_topic_raises_index_error Demo.tape Demo.nltk Demo.http Demo.table
           (Some "iv-1") "  " "" 30
           (@Demo.start Demo.table [3; 50; 7; 99; 12; 1; 0; 27; 5] [])).
  vm_compute. reflexivity.
Defined.

(** * Further properties of the program *)

(** ** More on strings *)




Lemma lstrip_length (s : string) : String.length (Str.lstrip s) <= String.length s.
Proof.
  induction s as [|c s IH]; simpl; [lia|].
  destruct (Str.isspace c); simpl; lia.
Qed.

(** What [lstrip] returns does not start with white space. *)
Lemma lstrip_head (s : string) c r :
  Str.lstrip s = String c r -> Str.isspace c = false.
Proof.
  induction s as [|d s IH]; simpl; [discriminate|].
  destruct (Str.isspace d) eqn:Hd; [exact IH|].
  intros E. inversion E; subst. exact Hd.
Qed.

Lemma lstrip_fixed (c : ascii) (r : string) :
  Str.isspace c = false -> Str.lstrip (String c r) = String c r.
Proof. intros Hc. simpl. rewrite Hc. reflexivity. Qed.

Lemma rstrip_head (c : ascii) (s : string) :
  Str.isspace c = false -> exists r, Str.rstrip (String c s) = String c r.
Proof.
  intros Hc. cbn [Str.rstrip]. destruct (Str.rstrip s); [rewrite Hc|]; eauto.
Qed.

Lemma rstrip_cons (c : ascii) (s : string) :
  Str.rstrip (String c s) =
  match Str.rstrip s with
  | EmptyString => if Str.isspace c then EmptyString else String c EmptyString
  | r => String c r
  end.
Proof. reflexivity. Qed.

Lemma rstrip_idempotent (s : string) : Str.rstrip (Str.rstrip s) = Str.rstrip s.
Proof.
  induction s as [|c s IH]; [reflexivity|].
  rewrite rstrip_cons. destruct (Str.rstrip s) as [|d r] eqn:Hr.
  - destruct (Str.isspace c) eqn:Hc; [reflexivity|].
    rewrite rstrip_cons. cbn [Str.rstrip]. rewrite Hc. reflexivity.
  - rewrite rstrip_cons, IH. reflexivity.
Qed.

(** Stripping twice is stripping once. *)
Lemma strip_idempotent (s : string) : Str.strip (Str.strip s) = Str.strip s.
Proof.
  unfold Str.strip.
  destruct (Str.lstrip s) as [|c t] eqn:Hl; [reflexivity|].
  pose proof (lstrip_head _ _ _ Hl) as Hc.
  destruct (rstrip_head c t Hc) as [r Hr].
  rewrite Hr, (lstrip_fixed c r Hc), <- Hr. apply rstrip_idempotent.
Qed.

Lemma has_linebreak_lstrip (s : string) :
  has_linebreak s = false -> has_linebreak (Str.lstrip s) = false.
Proof.
  induction s as [|c s IH]; [reflexivity|].
  cbn [has_linebreak Str.lstrip]. intros Hs.
  apply orb_false_iff in Hs as [Hc Hs].
  destruct (Str.isspace c); [apply IH; exact Hs|].
  cbn [has_linebreak]. rewrite Hc, Hs. reflexivity.
Qed.

Lemma has_linebreak_rstrip (s : string) :
  has_linebreak s = false -> has_linebreak (Str.rstrip s) = false.
Proof.
  induction s as [|c s IH]; [reflexivity|].
  cbn [has_linebreak Str.rstrip]. intros Hs.
  apply orb_false_iff in Hs as [Hc Hs]. specialize (IH Hs).
  destruct (Str.rstrip s) as [|d r].
  - destruct (Str.isspace c); [reflexivity|].
    cbn [has_linebreak]. rewrite Hc. reflexivity.
  - cbn [has_linebreak] in *. rewrite Hc. exact IH.
Qed.

Lemma has_linebreak_of_list (l : list ascii) :
  has_linebreak (string_of_list_ascii l) = existsb Str.is_linebreak l.
Proof. induction l as [|c l IH]; simpl; [reflexivity | rewrite IH; reflexivity]. Qed.

Lemma existsb_rev {A : Type} (f : A -> bool) (l : list A) :
  existsb f (rev l) = existsb f l.
Proof.
  induction l as [|x l IH]; [reflexivity|].
  simpl. rewrite existsb_app, IH. simpl. rewrite orb_false_r. apply orb_comm.
Qed.

(** The lines [splitlines] returns hold no line boundary. *)
Lemma splitlines_go_no_linebreak_upto (n : nat) (s : string) (cur : list ascii) :
  String.length s <= n ->
  existsb Str.is_linebreak cur = false ->
  Forall (fun l => has_linebreak l = false) (Str.splitlines_go cur s).
Proof.
  revert s cur. induction n as [|n IH]; intros s cur Hn Hcur;
    (assert (Hline : has_linebreak (string_of_list_ascii (rev cur)) = false)
      by (rewrite has_linebreak_of_list, existsb_rev; exact Hcur));
    destruct s as [|c s]; cbn [Str.splitlines_go];
    try (destruct cur; repeat constructor; exact Hline);
    simpl in Hn; try lia.
  destruct (Str.is_linebreak c) eqn:Hc.
  - constructor; [exact Hline|].
    destruct s as [|c' s']; [constructor|].
    destruct (Ascii.eqb c "013" && Ascii.eqb c' "010").
    + apply IH; [simpl in Hn; lia | reflexivity].
    + apply IH; [lia | reflexivity].
  - apply IH; [lia|]. simpl. rewrite Hc. exact Hcur.
Qed.

Lemma splitlines_go_no_linebreak (s : string) (cur : list ascii) :
  existsb Str.is_linebreak cur = false ->
  Forall (fun l => has_linebreak l = false) (Str.splitlines_go cur s).
Proof. apply (splitlines_go_no_linebreak_upto (String.length s)). lia. Qed.

(** ** The URLs of the caller *)

Lemma parse_urls_nonempty (extra_urls u : string) :
  u ∈ parse_urls extra_urls -> u <> "".
Proof.
  unfold parse_urls. intros Hu.
  apply list_elem_of_fmap in Hu as (line & -> & Hline).
  apply list_elem_of_In, filter_In in Hline as [_ Htr].
  intros E. rewrite E in Htr. discriminate.
Qed.

(** X1.  Every URL read from the text area is a line of it stripped of white
    space: it is not empty, it neither starts nor ends with white space, and
    it holds no line boundary. *)
Theorem parse_urls_clean (extra_urls u : string) :
  u ∈ parse_urls extra_urls ->
  u <> "" /\ Str.strip u = u /\ has_linebreak u = false /\
  exists line, line ∈ Str.splitlines extra_urls /\ u = Str.strip line.
Proof.
  unfold parse_urls. intros Hu.
  apply list_elem_of_fmap in Hu as (line & -> & Hline).
  apply list_elem_of_In, filter_In in Hline as [Hin Htr].
  assert (Hin' : line ∈ Str.splitlines extra_urls).
  { apply list_elem_of_In. destruct (Str.truthy extra_urls); [exact Hin|].
    destruct Hin. }
  splits.
  - intros E. rewrite E in Htr. discriminate.
  - apply strip_idempotent.
  - unfold Str.strip. apply has_linebreak_rstrip, has_linebreak_lstrip.
    pose proof (splitlines_go_no_linebreak extra_urls [] eq_refl) as HF.
    rewrite Forall_forall in HF. apply HF. exact Hin'.
  - exists line. split; [exact Hin' | reflexivity].
Qed.

Lemma parse_urls_clean_witness :
  "https://b" <> "" /\ Str.strip "https://b" = "https://b" /\
  has_linebreak "https://b" = false /\
  exists line,
    line ∈ Str.splitlines (" https://a " +:+ String "010" (String "010" "https://b  ")) /\
    "https://b" = Str.strip line.
Proof.
  apply (parse_urls_clean (" https://a " +:+ String "010" (String "010" "https://b  "))).
  vm_compute. right. left.
Defined.

(** ** The composer *)

Lemma filter_sublist {A : Type} (f : A -> bool) (l : list A) :
  sublist (List.filter f l) l.
Proof.
  induction l as [|q l IH]; simpl; [constructor|].
  destruct (f q); [apply sublist_skip | apply sublist_cons]; exact IH.
Qed.


Lemma sublist_map {A B : Type} (f : A -> B) (l k : list A) :
  sublist l k -> sublist (map f l) (map f k).
Proof.
  induction 1; simpl; [constructor | apply sublist_skip | apply sublist_cons]; assumption.
Qed.

Section ComposeFacts.
Context {R : Random} {N : Nltk}.

Lemma dict_fromkeys_go_spec (seen l : list string) :
  NoDup (dict_fromkeys_go seen l) /\
  sublist (dict_fromkeys_go seen l) l /\
  forall x, x ∈ dict_fromkeys_go seen l <-> x ∈ l /\ x ∉ seen.
Proof.
  revert seen. induction l as [|x l IH]; intros seen; cbn [dict_fromkeys_go].
  { splits; [constructor | constructor |].
    intros x. rewrite elem_of_nil. tauto. }
  destruct (bool_decide (x ∈ seen)) eqn:Hx.
  - apply bool_decide_eq_true in Hx.
    destruct (IH seen) as (Hnd & Hsub & Hin). splits.
    + exact Hnd.
    + apply sublist_cons. exact Hsub.
    + intros y. rewrite Hin, elem_of_cons. split; [tauto|].
      intros [[->|Hy] Hns]; [contradiction | tauto].
  - apply bool_decide_eq_false in Hx.
    destruct (IH (x :: seen)) as (Hnd & Hsub & Hin). splits.
    + constructor; [|exact Hnd]. rewrite Hin, elem_of_cons. tauto.
    + apply sublist_skip. exact Hsub.
    + intros y. rewrite !elem_of_cons, Hin, elem_of_cons.
      destruct (decide (y = x)) as [->|Hne]; tauto.
Qed.

(** X3.  The chosen terms are distinct and come in the order of the tokens of
    the paragraph. *)
Theorem chosen_nouns_distinct_in_order (para : string) :
  NoDup (chosen_nouns para) /\
  sublist (chosen_nouns para) (map fst (pos_tag (word_tokenize para))).
Proof.
  unfold chosen_nouns, dict_fromkeys, nouns_of.
  set (tags := pos_tag (word_tokenize para)).
  set (cands := map fst (List.filter _ tags)).
  destruct (dict_fromkeys_go_spec [] cands) as (Hnd & Hsub & _).
  split.
  - eapply sublist_NoDup; [exact Hnd | apply sublist_take].
  - etransitivity; [apply sublist_take|].
    etransitivity; [exact Hsub|].
    subst cands. apply sublist_map, filter_sublist.
Qed.

(** X4.  No term is chosen exactly when no token of the paragraph is tagged as a
    noun and longer than 3 characters; otherwise the first term is the first
    such token. *)
Theorem chosen_nouns_empty_iff (para : string) :
  let candidate := fun wt : string * string =>
    Str.startswith (snd wt) "NN" && (3 <? String.length (fst wt)) in
  (chosen_nouns para = [] <->
   Forall (fun wt => candidate wt = false) (pos_tag (word_tokenize para))) /\
  head (chosen_nouns para) =
    head (map fst (List.filter candidate (pos_tag (word_tokenize para)))).
Proof.
  intros candidate. unfold chosen_nouns, dict_fromkeys, nouns_of.
  fold candidate. set (tags := pos_tag (word_tokenize para)).
  assert (Hhead : head (take 3 (dict_fromkeys_go [] (map fst (List.filter candidate tags))))
                  = head (map fst (List.filter candidate tags))).
  { destruct (map fst (List.filter candidate tags)) as [|x l]; reflexivity. }
  split; [|exact Hhead].
  split.
  - intros E. rewrite E in Hhead. apply Forall_forall. intros wt Hwt.
    destruct (candidate wt) eqn:Hc; [|reflexivity]. exfalso.
    assert (Hin : In wt (List.filter candidate tags)).
    { apply filter_In. split; [apply list_elem_of_In; exact Hwt | exact Hc]. }
    destruct (List.filter candidate tags); [destruct Hin | discriminate].
  - intros HF. rewrite Forall_forall in HF.
    assert (E : List.filter candidate tags = []).
    { destruct (List.filter candidate tags) as [|wt l] eqn:Hf; [reflexivity|].
      assert (Hin : In wt (List.filter candidate tags)) by (rewrite Hf; left; reflexivity).
      apply filter_In in Hin as [Hin Hc].
      rewrite (HF wt) in Hc; [discriminate | apply list_elem_of_In; exact Hin]. }
    rewrite E. reflexivity.
Qed.

Context {RL : RandomLaws R}.

Lemma generate_question_from_text_shape (text tp : string) (g : rng) :
  exists para q g',
    generate_question_from_text text tp g = (Ok q, g') /\
    para ∈ take 5 (paragraphs text) /\
    q = match chosen_nouns para with
        | [] => generic_question tp
        | chosen => scenario_question (Str.join ", " (take 2 chosen)) tp
        end.
Proof.
  unfold generate_question_from_text.
  assert (Hne : take 5 (paragraphs text) <> []).
  { pose proof (paragraphs_nonempty text).
    destruct (paragraphs text); [congruence | discriminate]. }
  destruct (random_choice_ok _ g Hne) as (para & g1 & Hc).
  rewrite (bind_ok _ _ _ _ _ Hc).
  exists para. destruct (chosen_nouns para) eqn:Hch; eexists _, _;
    (split; [reflexivity|]); (split; [eapply random_choice_elem; exact Hc|]);
    reflexivity.
Qed.

End ComposeFacts.

(** X5.  The composer returns, and what it returns is one of the two question
    forms on the topic: for a paragraph among the first five of the text,
    the scenario form on its first two chosen terms, or the generic form
    when that paragraph has no chosen term. *)
Theorem question_is_a_template
    {R : Random} {N : Nltk} (RL : RandomLaws R) (text tp : string) (g : rng) :
  exists para q g',
    generate_question_from_text text tp g = (Ok q, g') /\
    para ∈ take 5 (paragraphs text) /\
    q = match chosen_nouns para with
        | [] =>
            "Describe an advanced challenge in " +:+ tp +:+
            " that can arise from the technology discussed in the source, and propose a step-by-step resolution strategy."
        | [term] =>
            "In a production scenario involving " +:+ term +:+
            ", what are the top non-obvious trade-offs you would evaluate, and how would you mitigate the top two risks? (Tie it into "
            +:+ tp +:+ " context.)"
        | first :: second :: _ =>
            "In a production scenario involving " +:+ (first +:+ ", " +:+ second) +:+
            ", what are the top non-obvious trade-offs you would evaluate, and how would you mitigate the top two risks? (Tie it into "
            +:+ tp +:+ " context.)"
        end.
Proof.
  destruct (generate_question_from_text_shape text tp g) as (para & q & g' & E & Hin & Hq).
  exists para, q, g'. split; [exact E|]. split; [exact Hin|].
  rewrite Hq. destruct (chosen_nouns para) as [|a [|b l]]; reflexivity.
Qed.

Lemma question_is_a_template_witness :
  exists q g',
    @generate_question_from_text Demo.tape Demo.nltk Demo.k8s_sentence "Kubernetes" [3]
      = (Ok q, g') /\
    q = "In a production scenario involving Kubernetes, clusters, what are the top non-obvious trade-offs you would evaluate, and how would you mitigate the top two risks? (Tie it into Kubernetes context.)".
Proof.
  destruct (@question_is_a_template Demo.tape Demo.nltk tape_laws
              Demo.k8s_sentence "Kubernetes" [3])
    as (para & q & g' & E & Hin & Hq).
  exists q, g'. split; [exact E|].
  vm_compute in Hin. apply list_elem_of_singleton in Hin. subst para. exact Hq.
Defined.

(** ** More on the seed corpus *)

Section SeedMore.
Context {H : Http}.

Lemma fetch_some_length (u : string) (max_chars : Z) (x : web) t x' :
  (0 <= max_chars)%Z ->
  fetch_text_from_url u max_chars x = (Ok (Some t), x') ->
  (Z.of_nat (String.length t) <= max_chars)%Z.
Proof.
  intros Hm. unfold fetch_text_from_url, fetch_try.
  destruct (requests_get u x) as [[|code body] x1]; [discriminate|].
  unfold bind, raise_for_status.
  destruct ((400 <=? code) && (code <? 600))%Z; [discriminate|].
  unfold ret. destruct (BeautifulSoup body) as [soup|]; [|discriminate].
  intros E. inversion E; subst. apply truncate_length. exact Hm.
Qed.

End SeedMore.

(** X7.  The fetch loop returns and does not raise; the units it returns follow
    the order of the URLs it was given, one for each URL that gave a text,
    and each text is non-empty and at most 2000 characters long. *)
Theorem fetch_seeds_in_order {H : Http} (urls : list string) (x : web) :
  exists seeds x',
    fetch_seeds urls x = (Ok seeds, x') /\
    sublist (map fst seeds) urls /\
    Forall (fun ut => snd ut <> "" /\ String.length (snd ut) <= 2000) seeds.
Proof.
  revert x. induction urls as [|u urls IH]; intros x.
  { eexists _, _. split; [reflexivity|]. split; constructor. }
  cbn [fetch_seeds].
  destruct (fetch_text_from_url u 2000 x) as [[o|e] x1] eqn:Hf.
  2:{ destruct (fetch_text_from_url_returns u 2000 x) as (o & x2 & Hf').
      congruence. }
  destruct (IH x1) as (more & x2 & Hm & Hsub & Hall).
  rewrite (bind_ok _ _ _ _ _ Hf), (bind_ok _ _ _ _ _ Hm).
  eexists _, _. split; [reflexivity|].
  destruct o as [[|c t]|]; cbn [Str.truthy].
  - split; [apply sublist_cons; exact Hsub | exact Hall].
  - split; [cbn [map fst]; apply sublist_skip; exact Hsub|].
    constructor; [|exact Hall]. cbn [snd]. split; [discriminate|].
    pose proof (fetch_some_length u 2000 x _ _ ltac:(lia) Hf) as Hlen. lia.
  - split; [apply sublist_cons; exact Hsub | exact Hall].
Qed.

(** X8.  When a URL of the caller gives text, the corpus is exactly what the
    URLs of the caller gave: neither the topic nor the curated sources are
    looked at, so that even a topic without a word does no harm, and the
    notice about the curated sources is not shown. *)
Theorem caller_urls_take_priority
    {R : Random} {N : Nltk} {H : Http} {S : Store}
    (tp : string) (urls : list string) (w : world)
    (s1 : list (string * string)) (x1 : web) :
  fetch_seeds urls (w_web w) = (Ok s1, x1) ->
  s1 <> [] ->
  build_seed_texts tp urls w =
    (Ok s1, {| w_rng := w_rng w; w_web := x1; w_db := w_db w;
               w_inserts := w_inserts w; w_ui := w_ui w |}).
Proof.
  intros Hf Hne.
  destruct (build_seed_texts_cases tp urls w) as (s1' & x1' & Hf' & Hc).
  rewrite Hf in Hf'. inversion Hf'; subst s1' x1'.
  destruct Hc as [[_ E]|[(E & _)|(E & _)]]; [exact E | congruence | congruence].
Qed.

Lemma caller_urls_take_priority_witness :
  fst (@build_seed_texts Demo.tape Demo.http Demo.table "  "
         ["https://example.com/gone"; "https://example.com/plain"]
         (@Demo.start Demo.table [] []))
  = Ok [("https://example.com/plain", "One Two")].
Proof.
  rewrite (@caller_urls_take_priority Demo.tape Demo.nltk Demo.http Demo.table "  "
             ["https://example.com/gone"; "https://example.com/plain"]
             (@Demo.start Demo.table [] [])
             [("https://example.com/plain", "One Two")] 2).
  - reflexivity.
  - vm_compute. reflexivity.
  - discriminate.
Defined.

Lemma default_urls_nonempty (key : string) (us : list string) (u : string) :
  default_lookup !! key = Some us -> u ∈ us -> u <> "".
Proof.
  unfold default_lookup. intros Hk Hu.
  apply elem_of_list_to_map_2 in Hk.
  repeat (apply elem_of_cons in Hk as [Hk|Hk];
          [inversion Hk; subst;
           apply list_elem_of_singleton in Hu; subst; discriminate|]).
  apply elem_of_nil in Hk. destruct Hk.
Qed.

Lemma build_seed_texts_units
    {R : Random} {N : Nltk} {H : Http} {S : Store}
    (tp extra_urls : string) (w : world)
    (seed_texts : list (string * string)) (w1 : world) :
  build_seed_texts tp (parse_urls extra_urls) w = (Ok seed_texts, w1) ->
  seed_texts <> [] /\
  Forall (fun ut =>
            fst ut <> "" /\ snd ut <> "" /\
            (fst ut ∈ parse_urls extra_urls \/
             (exists key us, default_lookup !! key = Some us /\ fst ut ∈ us) \/
             ut = ("local_fallback", local_fallback_text tp)))
         seed_texts.
Proof.
  intros Hb.
  destruct (build_seed_texts_cases tp (parse_urls extra_urls) w)
    as (s1 & x1 & Hf & Hc).
  destruct (fetch_seeds_ok (parse_urls extra_urls) (w_web w))
    as (s1' & x1' & Hf' & Hin1).
  rewrite Hf in Hf'. inversion Hf'; subst s1' x1'. clear Hf'.
  destruct Hc as [[Hne E]|[(_ & _ & E)|(_ & key & rest & s2 & x2 & _ & Hf2 & E)]];
    rewrite E in Hb; inversion Hb; subst; clear Hb.
  - split; [exact Hne|]. apply Forall_forall. intros [u t] Hut.
    destruct (Hin1 u t Hut) as [Hu Ht]. cbn [fst snd]. splits.
    + apply (parse_urls_nonempty extra_urls u Hu).
    + exact Ht.
    + left. exact Hu.
  - destruct (fetch_seeds_ok (default [] (default_lookup !! key)) x1)
      as (s2' & x2' & Hf2' & Hin2).
    rewrite Hf2 in Hf2'. inversion Hf2'; subst s2' x2'. clear Hf2'.
    destruct s2 as [|p s2].
    + split; [discriminate|]. constructor; [|constructor]. cbn [fst snd].
      splits; [discriminate | discriminate | right; right; reflexivity].
    + split; [discriminate|]. apply Forall_forall. intros [u t] Hut.
      destruct (Hin2 u t Hut) as [Hu Ht]. cbn [fst snd].
      destruct (default_lookup !! key) as [us|] eqn:Hk;
        [|apply elem_of_nil in Hu; destruct Hu].
      cbn [default] in Hu. splits.
      * exact (default_urls_nonempty key us u Hk Hu).
      * exact Ht.
      * right. left. eauto.
Qed.

(** X9.  Every unit of a corpus built from the text area of the caller has a
    non-empty identifier and a non-empty text; the identifier is a URL of
    the caller, a curated URL, or the name of the fallback unit. *)
Theorem corpus_units_are_named_and_non_empty
    {R : Random} {N : Nltk} {H : Http} {S : Store}
    (tp extra_urls : string) (w : world)
    (seed_texts : list (string * string)) (w1 : world) :
  build_seed_texts tp (parse_urls extra_urls) w = (Ok seed_texts, w1) ->
  seed_texts <> [] /\
  Forall (fun ut =>
            fst ut <> "" /\ snd ut <> "" /\
            (fst ut ∈ parse_urls extra_urls \/
             (exists key us, default_lookup !! key = Some us /\ fst ut ∈ us) \/
             ut = ("local_fallback", local_fallback_text tp)))
         seed_texts.
Proof. apply build_seed_texts_units. Qed.

Lemma corpus_units_are_named_and_non_empty_witness :
  Forall (fun ut =>
            fst ut <> "" /\ snd ut <> "" /\
            (fst ut ∈ parse_urls "https://example.com/plain" \/
             (exists key us, default_lookup !! key = Some us /\ fst ut ∈ us) \/
             ut = ("local_fallback", local_fallback_text "DevOps")))
         [("https://example.com/plain", "One Two")].
Proof.
  eapply (@corpus_units_are_named_and_non_empty Demo.tape Demo.nltk Demo.http
            Demo.table "DevOps" "https://example.com/plain"
            (@Demo.start Demo.table [] [])).
  vm_compute. reflexivity.
Defined.

(** ** The Read / Topic tab *)

Section ReadFacts.
Context {R : Random} {N : Nltk} {H : Http} {S : Store}.

Lemma fetch_text_from_url_web (u : string) (max_chars : Z) (x : web) :
  snd (fetch_text_from_url u max_chars x) = snd (requests_get u x).
Proof.
  unfold fetch_text_from_url, fetch_try.
  destruct (requests_get u x) as [[|code body] x1]; [reflexivity|].
  unfold bind, raise_for_status.
  destruct ((400 <=? code) && (code <? 600))%Z; [reflexivity|].
  unfold ret. destruct (BeautifulSoup body); reflexivity.
Qed.

Lemma fetch_fallbacks_spec (urls : list string) (x : web) :
  exists sources x',
    fetch_fallbacks urls x = (Ok sources, x') /\
    sublist (map fst sources) urls /\
    Forall (fun ut => snd ut <> "" /\ String.length (snd ut) <= 3000) sources.
Proof.
  revert x. induction urls as [|u urls IH]; intros x.
  { eexists _, _. split; [reflexivity|]. split; constructor. }
  cbn [fetch_fallbacks].
  destruct (fetch_text_from_url u 3000 x) as [[o|e] x1] eqn:Hf.
  2:{ destruct (fetch_text_from_url_returns u 3000 x) as (o & x2 & Hf').
      congruence. }
  destruct (IH x1) as (more & x2 & Hm & Hsub & Hall).
  rewrite (bind_ok _ _ _ _ _ Hf), (bind_ok _ _ _ _ _ Hm).
  eexists _, _. split; [reflexivity|].
  destruct o as [[|c t]|]; cbn [Str.truthy].
  - split; [apply sublist_cons; exact Hsub | exact Hall].
  - split; [cbn [map fst]; apply sublist_skip; exact Hsub|].
    constructor; [|exact Hall]. cbn [snd]. split; [discriminate|].
    pose proof (fetch_some_length u 3000 x _ _ ltac:(lia) Hf) as Hlen. lia.
  - split; [apply sublist_cons; exact Hsub | exact Hall].
Qed.

Lemma read_in_rng_run {A : Type} (m : M rng A) (w : read_world) r g :
  m (r_rng w) = (r, g) ->
  read_in_rng m w =
    (r, {| r_rng := g; r_web := r_web w; r_db := r_db w;
           r_inserts := r_inserts w; r_ui := r_ui w |}).
Proof. unfold read_in_rng. intros ->. reflexivity. Qed.

End ReadFacts.

(** X12.  The sources of the Read / Topic tab.  The fetch returns and does not
    raise, and every source has a non-empty text.  When the caller names a
    page, exactly one request is made, for that page, and the sources are
    that page alone, cut to 4000 characters, or nothing: the fixed pages are
    not tried.  When the caller names none, the sources are among the two
    fixed pages, in their order, each cut to 3000 characters. *)
Theorem read_sources_spec {H : Http} (url_read : string) (x : web) :
  exists sources x',
    read_sources url_read x = (Ok sources, x') /\
    Forall (fun ut => snd ut <> "") sources /\
    if Str.truthy url_read then
      x' = snd (requests_get url_read x) /\
      (sources = [] \/
       exists t, sources = [(url_read, t)] /\ String.length t <= 4000)
    else
      sublist (map fst sources) fallback_urls /\
      Forall (fun ut => String.length (snd ut) <= 3000) sources.
Proof.
  unfold read_sources. destruct (Str.truthy url_read).
  - pose proof (fetch_text_from_url_web url_read 4000 x) as Hweb.
    destruct (fetch_text_from_url url_read 4000 x) as [[o|e] x1] eqn:Hf.
    2:{ destruct (fetch_text_from_url_returns url_read 4000 x) as (o & x2 & Hf').
        congruence. }
    rewrite (bind_ok _ _ _ _ _ Hf). eexists _, _. split; [reflexivity|].
    cbn [snd] in Hweb.
    destruct o as [[|c t]|]; cbn [Str.truthy].
    + split; [constructor|]. split; [exact Hweb | left; reflexivity].
    + split; [constructor; [discriminate | constructor]|].
      split; [exact Hweb|]. right. eexists. split; [reflexivity|].
      pose proof (fetch_some_length url_read 4000 x _ _ ltac:(lia) Hf). lia.
    + split; [constructor|]. split; [exact Hweb | left; reflexivity].
  - destruct (fetch_fallbacks_spec fallback_urls x) as (sources & x' & E & Hsub & Hall).
    exists sources, x'. split; [exact E|].
    split; [|split; [exact Hsub|]]; eapply Forall_impl; try exact Hall;
      intros ut [? ?]; assumption.
Qed.


(** X13.  When the page named by the caller gives no text, the tab shows the
    failure notice and stops: one request has been made, no random draw, no
    insert. *)
Theorem failed_page_is_not_replaced
    {R : Random} {N : Nltk} {H : Http} {S : Store}
    (id : option string) (tp url_read : string) (n_pair : nat) (w : read_world) :
  Str.truthy url_read = true ->
  (fst (fetch_text_from_url url_read 4000 (r_web w)) = Ok None \/
   fst (fetch_text_from_url url_read 4000 (r_web w)) = Ok (Some "")) ->
  fetch_and_prepare id tp url_read n_pair w =
    (Ok tt,
     {| r_rng := r_rng w; r_web := snd (requests_get url_read (r_web w));
        r_db := r_db w; r_inserts := r_inserts w;
        r_ui := r_ui w ++ [ErrorNoSources] |}).
Proof.
  intros Hu Hno. unfold fetch_and_prepare, read_in_web, read_sources.
  rewrite Hu. unfold bind at 1. unfold bind at 1.
  rewrite <- (fetch_text_from_url_web url_read 4000 (r_web w)).
  destruct (fetch_text_from_url url_read 4000 (r_web w)) as [o x1].
  cbn [fst snd] in *. destruct Hno as [-> | ->]; reflexivity.
Qed.

Lemma failed_page_is_not_replaced_witness :
  DemoRead.run "Kubernetes" "https://example.com/gone" 5 =
    (Ok tt,
     {| r_rng := [3; 50; 7; 99; 12; 1; 0; 27; 5] : @rng Demo.tape;
        r_web := 1 : @web Demo.http; r_db := [] : @db Demo.table;
        r_inserts := []; r_ui := [ErrorNoSources] |}).
Proof.
  unfold DemoRead.run.
  rewrite (@failed_page_is_not_replaced Demo.tape Demo.nltk Demo.http Demo.table).
  - reflexivity.
  - reflexivity.
  - left. vm_compute. reflexivity.
Defined.

(** ** The guest identity *)

Lemma last_cons_default {A : Type} (x d : A) (l : list A) :
  List.last (x :: l) d = List.last l x.
Proof.
  revert x d. induction l as [|y l IH]; intros x d; [reflexivity|].
  change (List.last (x :: y :: l) d) with (List.last (y :: l) d).
  rewrite (IH y d), (IH y x). reflexivity.
Qed.

Lemma guest_prefix_length (s : string) :
  String.length ("guest_" +:+ s) = 6 + String.length s.
Proof. reflexivity. Qed.

Section GuestFacts.
Context {R : Random}.

Lemma guest_user_spec (guest_id : option string) (g : rng) :
  exists suffix g',
    guest_user guest_id g = (Ok ("guest_" +:+ suffix, Some ("guest_" +:+ suffix)), g') /\
    (forall s, guest_id = Some s -> s <> "" -> suffix = s /\ g' = g).
Proof.
  unfold guest_user.
  assert (Hfresh : exists suffix g',
             (n <~ randint 1000 9999;; ret (str_of_nat n)) g = (Ok suffix, g')).
  { unfold randint, bind, lift, ret. destruct (randbelow _ g). eauto. }
  destruct guest_id as [[|c s]|]; cbn [Str.truthy].
  - destruct Hfresh as (suffix & g' & E). rewrite (bind_ok _ _ _ _ _ E).
    exists suffix, g'. split; [reflexivity|]. intros s Hs. inversion Hs. congruence.
  - exists (String c s), g. split; [reflexivity|].
    intros s' Hs _. inversion Hs. auto.
  - destruct Hfresh as (suffix & g' & E). rewrite (bind_ok _ _ _ _ _ E).
    exists suffix, g'. split; [reflexivity|]. discriminate.
Qed.

(** Runs that start from a guest id [s] kept in the session: each current
    user is "guest_" followed by the one before, all are longer than [s],
    and no two are the same. *)
Lemma guest_runs_from_kept (k : nat) (s : string) (g : rng) :
  s <> "" ->
  exists ids,
    guest_runs k (Some s) g = (Ok (ids, Some (List.last ids s)), g) /\
    length ids = k /\
    Forall (fun u => String.length s < String.length u) ids /\
    NoDup ids /\
    head ids = match k with 0 => None | _ => Some ("guest_" +:+ s) end /\
    (forall i u v, ids !! i = Some u -> ids !! Datatypes.S i = Some v ->
                   v = "guest_" +:+ u).
Proof.
  revert s. induction k as [|k IH]; intros s Hs.
  { exists []. splits; try reflexivity; try constructor.
    intros i u v Hu. rewrite lookup_nil in Hu. discriminate. }
  cbn [guest_runs].
  destruct (guest_user_spec (Some s) g) as (suffix & g' & E & Hkept).
  destruct (Hkept s eq_refl Hs) as [-> ->].
  rewrite (bind_ok _ _ _ _ _ E). cbn [fst snd].
  assert (Hne : "guest_" +:+ s <> "") by (cbn; discriminate).
  destruct (IH ("guest_" +:+ s) Hne) as (ids & Er & Hlen & Hlong & Hnd & Hhd & Hch).
  rewrite (bind_ok _ _ _ _ _ Er). cbn [fst snd].
  exists (("guest_" +:+ s) :: ids). splits.
  - unfold ret. rewrite last_cons_default. reflexivity.
  - simpl. rewrite Hlen. reflexivity.
  - constructor; [rewrite guest_prefix_length; lia|].
    eapply Forall_impl; [exact Hlong|]. intros u Hu.
    rewrite guest_prefix_length in Hu. lia.
  - constructor; [|exact Hnd]. intros Hin.
    rewrite Forall_forall in Hlong. specialize (Hlong _ Hin). lia.
  - reflexivity.
  - intros [|i] u v Hu Hv; cbn in Hu, Hv.
    + inversion Hu; subst u. destruct k; [subst; destruct ids; discriminate|].
      destruct ids as [|u0 ids]; [discriminate|]. cbn in Hhd, Hv. congruence.
    + eapply Hch; eauto.
Qed.

End GuestFacts.

(** X15.  In guest mode the identifier is not stable.  Over any number of runs of
    the script in one session, each run takes as current user "guest_"
    followed by the current user of the run before, so that no two runs have
    the same user, and the guest id left in the session is the last of them. *)
Theorem guest_id_grows_on_every_run
    {R : Random} (k : nat) (guest_id : option string) (g : rng) :
  exists ids kept g',
    guest_runs k guest_id g = (Ok (ids, kept), g') /\
    length ids = k /\
    NoDup ids /\
    (forall i u v, ids !! i = Some u -> ids !! Datatypes.S i = Some v ->
                   v = "guest_" +:+ u /\
                   String.length v = 6 + String.length u) /\
    kept = match last ids with Some u => Some u | None => guest_id end.
Proof.
  destruct k as [|k].
  { exists [], guest_id, g. splits; try reflexivity; [constructor|].
    intros i u v Hu. rewrite lookup_nil in Hu. discriminate. }
  cbn [guest_runs].
  destruct (guest_user_spec guest_id g) as (suffix & g' & E & _).
  rewrite (bind_ok _ _ _ _ _ E). cbn [fst snd].
  assert (Hne : "guest_" +:+ suffix <> "") by (cbn; discriminate).
  destruct (guest_runs_from_kept k ("guest_" +:+ suffix) g' Hne)
    as (ids & Er & Hlen & Hlong & Hnd & Hhd & Hch).
  rewrite (bind_ok _ _ _ _ _ Er). cbn [fst snd].
  eexists _, _, _. split; [reflexivity|]. splits.
  - simpl. rewrite Hlen. reflexivity.
  - constructor; [|exact Hnd]. intros Hin.
    rewrite Forall_forall in Hlong. specialize (Hlong _ Hin). lia.
  - intros i u v Hu Hv.
    assert (Hv' : v = "guest_" +:+ u).
    { destruct i as [|i]; cbn in Hu, Hv.
      - inversion Hu; subst u. destruct k; [subst; destruct ids; discriminate|].
        destruct ids as [|u0 ids]; [discriminate|]. cbn in Hhd, Hv. congruence.
      - eapply Hch; eauto. }
    split; [exact Hv'|]. subst v. apply guest_prefix_length.
  - destruct ids as [|u0 ids]; [reflexivity|].
    cbn [last]. clear. revert u0. generalize ("guest_" +:+ suffix).
    induction ids as [|u1 ids IH]; intros d u0; [reflexivity|].
    cbn [List.last last]. destruct ids as [|u2 ids]; [reflexivity|].
    apply (IH d u1).
Qed.

Lemma str_of_nat_four_digits (n : nat) :
  1000 <= n -> n < 10 * 1000 -> String.length (str_of_nat n) = 4.
Proof.
  intros Hlo Hhi.
  assert (Hall : forallb (fun m => String.length (str_of_nat m) =? 4)
                   (seq 1000 (9 * 1000)) = true) by (vm_compute; reflexivity).
  rewrite forallb_forall in Hall.
  apply Nat.eqb_eq, Hall, in_seq. lia.
Qed.

(** X16.  The first guest identifier of a session is "guest_" followed by the
    four digits of a number from 1000 to 9999. *)
Theorem first_guest_id_has_four_digits
    {R : Random} (RL : RandomLaws R) (g : rng) :
  exists n g',
    guest_user None g =
      (Ok ("guest_" +:+ str_of_nat n, Some ("guest_" +:+ str_of_nat n)), g') /\
    1000 <= n /\ n < 10 * 1000 /\
    String.length ("guest_" +:+ str_of_nat n) = 10.
Proof.
  unfold guest_user, randint, bind, lift, ret.
  assert (Hw : 9999 - 1000 + 1 = 9 * 1000) by (vm_compute; reflexivity).
  rewrite Hw.
  pose proof (randbelow_lt (9 * 1000) g ltac:(lia)) as Hlt.
  destruct (randbelow (9 * 1000) g) as [i g']. cbn [fst] in Hlt.
  exists (1000 + i), g'. split; [reflexivity|].
  split; [lia|]. split; [lia|].
  rewrite guest_prefix_length, str_of_nat_four_digits by lia. reflexivity.
Qed.

Lemma first_guest_id_has_four_digits_witness :
  exists n g',
    @guest_user Demo.tape None [1234; 7] =
      (Ok ("guest_" +:+ str_of_nat n, Some ("guest_" +:+ str_of_nat n)), g') /\
    1000 <= n /\ n < 10 * 1000 /\
    String.length ("guest_" +:+ str_of_nat n) = 10.
Proof. exact (@first_guest_id_has_four_digits Demo.tape tape_laws [1234; 7]). Defined.

(** * The import of line 50 and what it stops *)

Lemma demo_nltk_laws : NltkLaws Demo.nltk.
Proof. split. reflexivity. Qed.

Section ImportFacts.
Context {R : Random} {N : Nltk} {NL : NltkLaws N}.

Lemma import_from_tokenize_raises (g : rng) :
  import_from_tokenize ["sent_tokenize"; "word_tokenize"; "pos_tag"] g
    = (Raise ImportError, g).
Proof.
  unfold import_from_tokenize. cbn [forallb].
  rewrite tokenize_lacks_pos_tag, andb_false_l, !andb_false_r. reflexivity.
Qed.

Lemma paraphrase_simple_raises (text : string) (g : rng) :
  paraphrase_simple text g = (Raise ImportError, g).
Proof.
  unfold paraphrase_simple.
  apply bind_raise, import_from_tokenize_raises.
Qed.

End ImportFacts.

(** C5, at the inputs where it fails.  The paraphraser starts by importing
    [pos_tag] from [nltk.tokenize], which has no such name: on every text,
    the empty one included, it raises ImportError before it reads the text,
    and leaves the random generator as it was. *)
Theorem paraphrase_simple_raises_import_error
    {R : Random} {N : Nltk} (NL : NltkLaws N) (text : string) (g : rng) :
  paraphrase_simple text g = (Raise ImportError, g) /\
  paraphrase_simple "" g <> (Ok "", g).
Proof.
  rewrite !paraphrase_simple_raises. split; [reflexivity | discriminate].
Qed.

Lemma paraphrase_simple_raises_import_error_witness :
  @paraphrase_simple Demo.tape Demo.nltk "Top risks here. Scenario two." [10; 1]
    = (Raise ImportError, [10; 1]).
Proof.
  apply (@paraphrase_simple_raises_import_error Demo.tape Demo.nltk demo_nltk_laws
           "Top risks here. Scenario two." [10; 1]).
Defined.

Section LoopFacts.
Context {R : Random} {N : Nltk} {H : Http} {S : Store}.
Context {RL : RandomLaws R} {NL : NltkLaws N}.

(** A round of the loop over a non-empty corpus draws a unit, composes the
    question and raises at the paraphrase: nothing is appended and the table
    is not called. *)
Lemma generation_loop_round_raises (id : option string) (tp : string)
    (seed_texts : list (string * string)) (n : nat)
    (saved_qs : list question) (w : world) :
  seed_texts <> [] ->
  exists g',
    generation_loop id tp seed_texts (Datatypes.S n) saved_qs w =
      (Raise ImportError,
       {| w_rng := g'; w_web := w_web w; w_db := w_db w;
          w_inserts := w_inserts w; w_ui := w_ui w |}).
Proof.
  intros Hne. cbn [generation_loop].
  destruct (random_choice_ok seed_texts (w_rng w) Hne) as ([src text] & g1 & Hc).
  rewrite (bind_ok _ _ _ _ _ (in_rng_run _ _ _ _ Hc)). cbv beta iota.
  destruct (generate_question_from_text_ok text tp g1) as (q & g2 & Hq).
  match goal with
  | |- context [bind (in_rng ?m) ?k ?w0] =>
      rewrite (bind_ok (in_rng m) k w0 _ _ (in_rng_run m w0 _ _ Hq))
  end.
  match goal with
  | |- context [bind (in_rng ?m) ?k ?w0] =>
      rewrite (bind_raise (in_rng m) k w0 _ _
                 (in_rng_run m w0 _ _ (paraphrase_simple_raises q g2)))
  end.
  exists g2. reflexivity.
Qed.

(** Every run of the handler: the table is never called.  A run ends well
    only when no question is asked for; otherwise it raises, at the first
    paraphrase when the corpus was built, at the first word of the topic
    when it was not. *)
Lemma generate_btn_outcome (id : option string) (tp extra_urls : string)
    (n_q : nat) (w : world) :
  exists r w',
    generate_btn id tp extra_urls n_q w = (r, w') /\
    w_inserts w' = w_inserts w /\ w_db w' = w_db w /\
    match r with
    | Ok _ => n_q = 0
    | Raise e =>
        (e = ImportError /\ 1 <= n_q /\
         exists seed_texts w1,
           build_seed_texts tp (parse_urls extra_urls) w = (Ok seed_texts, w1) /\
           w_ui w' = w_ui w1) \/
        (e = IndexError /\
         build_seed_texts tp (parse_urls extra_urls) w = (Raise IndexError, w'))
    end.
Proof.
  unfold generate_btn.
  destruct (build_seed_texts_spec tp (parse_urls extra_urls) w)
    as (rb & w1 & shown & Hb & Hb1 & Hb2 & _ & _ & _ & Hb6).
  destruct rb as [seeds|e].
  2:{ destruct Hb6 as (-> & _).
      rewrite (bind_raise _ _ _ _ _ Hb).
      exists (Raise IndexError), w1. splits; [reflexivity | exact Hb1 | exact Hb2 |].
      right. split; [reflexivity | exact Hb]. }
  rewrite (bind_ok _ _ _ _ _ Hb).
  destruct n_q as [|n].
  - eexists _, _. split; [reflexivity|]. cbn [w_inserts w_db]. splits; auto.
  - destruct (generation_loop_round_raises id tp seeds n [] w1 Hb6) as (g' & Hl).
    rewrite (bind_raise _ _ _ _ _ Hl).
    eexists _, _. split; [reflexivity|]. cbn [w_inserts w_db w_ui].
    splits; [exact Hb1 | exact Hb2 |].
    left. splits; [reflexivity | lia |]. exists seeds, w1. split; [exact Hb | reflexivity].
Qed.

End LoopFacts.

(** X10.  The Generate tab on a request whose corpus is built.  Whenever the corpus of a request is
    built and at least one question is asked for, the handler raises
    ImportError at the paraphrase of the first round: no row is produced, the
    table is not called, and nothing is shown after the corpus was built. *)
Theorem request_raises_before_first_insert
    {R : Random} {N : Nltk} {H : Http} {S : Store}
    (RL : RandomLaws R) (NL : NltkLaws N)
    (id : option string) (tp extra_urls : string) (n_q : nat) (w : world)
    (seed_texts : list (string * string)) (w1 : world) :
  build_seed_texts tp (parse_urls extra_urls) w = (Ok seed_texts, w1) ->
  1 <= n_q ->
  exists w',
    generate_btn id tp extra_urls n_q w = (Raise ImportError, w') /\
    w_inserts w' = w_inserts w /\
    w_db w' = w_db w /\
    w_ui w' = w_ui w1.
Proof.
  intros Hb Hn.
  destruct (generate_btn_outcome id tp extra_urls n_q w)
    as (r & w' & E & Hi & Hd & Hr).
  destruct r as [u|e]; [lia|].
  destruct Hr as [(-> & _ & s & w2 & Hb' & Hu)|(_ & Hb')]; [|congruence].
  rewrite Hb in Hb'. inversion Hb'; subst s w2.
  exists w'. splits; assumption.
Qed.

Lemma request_raises_before_first_insert_witness :
  exists w',
    Demo.run Demo.table [] "DevOps" "" 30 = (Raise ImportError, w') /\
    w_inserts w' = [] /\
    w_db w' = [].
Proof.
  destruct (@request_raises_before_first_insert Demo.tape Demo.nltk Demo.http Demo.table
              tape_laws demo_nltk_laws (Some "iv-1") "DevOps" "" 30
              (@Demo.start Demo.table [3; 50; 7; 99; 12; 1; 0; 27; 5] [])
              [("local_fallback", local_fallback_text "DevOps")]
              {| w_rng := [3; 50; 7; 99; 12; 1; 0; 27; 5] : @rng Demo.tape;
                 w_web := 1 : @web Demo.http; w_db := [] : @db Demo.table;
                 w_inserts := []; w_ui := [InfoDefaultSources] |})
    as (w' & E & Hi & Hd & _).
  - vm_compute. reflexivity.
  - lia.
  - exists w'. splits; assumption.
Defined.

(** ** The batches of a run, whatever the tokenizer module holds

    The lemmas of this section assume nothing of NLTK: they hold of the loop
    as it is written, when the import of line 50 raises and when it does
    not. *)

Section BatchFacts.
Context {R : Random} {N : Nltk} {H : Http} {S : Store}.





End BatchFacts.







(** ** The Read / Topic tab *)

Section ReadLoopFacts.
Context {R : Random} {N : Nltk} {H : Http} {S : Store}.
Context {RL : RandomLaws R} {NL : NltkLaws N}.

(** A round of the loop of the tab on a non-empty list of sources raises at
    the paraphrase of line 367, before the insert of line 369: only the
    generator has moved. *)
Lemma read_loop_round_raises (id : option string) (topic_read : string)
    (sources : list (string * string)) (n i : nat) (w : read_world) :
  sources <> [] ->
  exists g',
    read_loop id topic_read sources (Datatypes.S n) i w =
      (Raise ImportError,
       {| r_rng := g'; r_web := r_web w; r_db := r_db w;
          r_inserts := r_inserts w; r_ui := r_ui w |}).
Proof.
  intros Hne. cbn [read_loop].
  destruct (random_choice_ok sources (r_rng w) Hne) as ([src text] & g1 & Hc).
  rewrite (bind_ok _ _ _ _ _ (read_in_rng_run _ _ _ _ Hc)). cbv beta iota.
  destruct (generate_question_from_text_ok text topic_read g1) as (q & g2 & Hq).
  match goal with
  | |- context [bind (read_in_rng ?m) ?k ?w0] =>
      rewrite (bind_ok (read_in_rng m) k w0 _ _ (read_in_rng_run m w0 _ _ Hq))
  end.
  match goal with
  | |- context [bind (read_in_rng ?m) ?k ?w0] =>
      rewrite (bind_raise (read_in_rng m) k w0 _ _
                 (read_in_rng_run m w0 _ _
                    (paraphrase_simple_raises (Str.slice_to 400 text) g2)))
  end.
  exists g2. reflexivity.
Qed.

End ReadLoopFacts.

(** X14.  The Read / Topic tab on a request that fetched a source.  When
    some source was fetched and at least one pair is asked for, the tab shows
    the count of the sources and then raises ImportError at the first
    paraphrase: no pair is shown, and the table is not called. *)
Theorem read_tab_raises_before_first_insert
    {R : Random} {N : Nltk} {H : Http} {S : Store}
    (RL : RandomLaws R) (NL : NltkLaws N)
    (id : option string) (topic_read url_read : string) (n_pair : nat)
    (w : read_world) (sources : list (string * string)) (x1 : web) :
  read_sources url_read (r_web w) = (Ok sources, x1) ->
  sources <> [] ->
  1 <= n_pair ->
  exists g',
    fetch_and_prepare id topic_read url_read n_pair w =
      (Raise ImportError,
       {| r_rng := g'; r_web := x1; r_db := r_db w;
          r_inserts := r_inserts w;
          r_ui := r_ui w ++ [SuccessFetched (length sources) n_pair] |}).
Proof.
  intros Hs Hne Hn.
  destruct n_pair as [|n]; [lia|].
  unfold fetch_and_prepare.
  assert (Hw : read_in_web (read_sources url_read) w =
                 (Ok sources,
                  {| r_rng := r_rng w; r_web := x1; r_db := r_db w;
                     r_inserts := r_inserts w; r_ui := r_ui w |})).
  { unfold read_in_web. rewrite Hs. reflexivity. }
  rewrite (bind_ok _ _ _ _ _ Hw).
  destruct sources as [|s0 rest]; [congruence|].
  set (srcs := s0 :: rest) in *.
  match goal with
  | |- context [bind (read_show ?e) ?k ?w0] =>
      destruct (read_loop_round_raises id topic_read srcs n 0
                  (snd (read_show e w0)) Hne) as (g' & Hl)
  end.
  exists g'. unfold bind at 1. cbn [read_show]. cbn [read_show snd] in Hl.
  exact Hl.
Qed.

Lemma read_tab_raises_before_first_insert_witness :
  exists w',
    DemoRead.run "Kubernetes" "https://example.com/article" 3 =
      (Raise ImportError, w') /\
    r_inserts w' = [] /\
    r_db w' = [] /\
    exists n, r_ui w' = [SuccessFetched n 3].
Proof.
  destruct (@read_tab_raises_before_first_insert
              Demo.tape Demo.nltk Demo.http Demo.table
              tape_laws demo_nltk_laws (Some "iv-1") "Kubernetes"
              "https://example.com/article" 3
              (DemoRead.start [3; 50; 7; 99; 12; 1; 0; 27; 5])
              [("https://example.com/article",
                "Kubernetes clusters require careful resource allocation and monitoring. More.")]
              (1 : @web Demo.http)) as (g' & E).
  - vm_compute. reflexivity.
  - discriminate.
  - lia.
  - eexists. split; [exact E|]. splits; try reflexivity. exists 1. reflexivity.
Defined.

(** ** Runs of the handlers on the small collaborators *)

(** Thirty questions on the local corpus: the first paraphrase raises, after
    the generator gave the source and the paragraph. *)
Example run_thirty_raises :
  Demo.run Demo.table [] "DevOps" "" 30 =
    (Raise ImportError,
     {| w_rng := [7; 99; 12; 1; 0; 27; 5] : @rng Demo.tape;
        w_web := 1 : @web Demo.http; w_db := [] : @db Demo.table;
        w_inserts := []; w_ui := [InfoDefaultSources] |}).
Proof. vm_compute. reflexivity. Qed.

(** A topic of blanks: line 205 raises before any draw. *)
Example run_blank_topic_raises :
  fst (Demo.run Demo.table [] "   " "" 30) = Raise IndexError.
Proof. vm_compute. reflexivity. Qed.

(** Three pairs from a page: the count of the sources is shown, and the
    first paraphrase raises. *)
Example read_run_three_raises :
  DemoRead.run "Kubernetes" "https://example.com/article" 3 =
    (Raise ImportError,
     {| r_rng := [7; 99; 12; 1; 0; 27; 5] : @rng Demo.tape;
        r_web := 1 : @web Demo.http; r_db := [] : @db Demo.table;
        r_inserts := []; r_ui := [SuccessFetched 1 3] |}).
Proof. vm_compute. reflexivity. Qed.
